(** * X-ray detection web application (app.py): model and verified properties

    A shallow embedding of [app.py]: the storage helpers over the
    [predictions] table, the inference adapter, the upload pipeline of
    [/predict], [/api/recent] and the report generator of
    [/download_report].

    Conventions of the embedding.
    - Python [str] is [string]; only ASCII text is modelled.
    - A Python [float] is the rational number it denotes ([Q]); every
      arithmetic operation, [float(...)] and [round(x, n)] round the exact
      result to the nearest binary64 value, ties to even ([F64.RN]).
      Readings of the environment and model outputs are doubles; a decimal
      literal [d] of the source is [F64.RN d]. Overflow to infinity and
      NaN are outside the model.
    - Dictionaries of the request ([files], [form], [args], [headers]) are
      finite maps keyed by strings; the upload directory is a finite map
      from paths to file contents.
    - A call that can raise returns [PyResult]; outcomes decided outside
      the program (clock, random generator, PIL, the file system, the
      database server, the loaded model) are read from an [Env] record. *)

From Stdlib Require Import ZArith QArith Qround Qpower Qabs Lia Lqa List Ascii String Bool.
From Stdlib Require Import Sorting.Sorted Sorting.Permutation.
From stdpp Require Import base gmap strings list fin_maps.

Open Scope string_scope.
Open Scope Z_scope.

(* ===================================================================== *)
(** ** Exceptions *)
(* ===================================================================== *)

(** The result of a Python call: a value, or a raised exception carrying
    its message ([str(e)]). *)
Inductive PyResult (A : Type) : Type :=
| Ok (a : A)
| Raise (msg : string).
Arguments Ok {A} a.
Arguments Raise {A} msg.

(* ===================================================================== *)
(** ** Python string operations used by the program *)
(* ===================================================================== *)

Module PyStr.

Definition is_upper (c : ascii) : bool :=
  let n := nat_of_ascii c in (65 <=? n)%nat && (n <=? 90)%nat.
Definition is_lower (c : ascii) : bool :=
  let n := nat_of_ascii c in (97 <=? n)%nat && (n <=? 122)%nat.
Definition is_digit (c : ascii) : bool :=
  let n := nat_of_ascii c in (48 <=? n)%nat && (n <=? 57)%nat.

(** [str.isspace] on an ASCII character. *)
Definition is_space (c : ascii) : bool :=
  let n := nat_of_ascii c in
  ((9 <=? n)%nat && (n <=? 13)%nat) || ((28 <=? n)%nat && (n <=? 32)%nat).

(** White space as [int] skips it around an ASCII literal: tab, line feed,
    vertical tab, form feed, carriage return and space. *)
Definition is_c_space (c : ascii) : bool :=
  let n := nat_of_ascii c in
  ((9 <=? n)%nat && (n <=? 13)%nat) || (n =? 32)%nat.

Definition lower_char (c : ascii) : ascii :=
  if is_upper c then ascii_of_nat (nat_of_ascii c + 32) else c.

(** [s.lower()]. *)
Fixpoint lower (s : string) : string :=
  match s with
  | EmptyString => EmptyString
  | String c r => String (lower_char c) (lower r)
  end.

(** [sep in s] for a one-character [sep]. *)
Fixpoint has_char (sep : ascii) (s : string) : bool :=
  match s with
  | EmptyString => false
  | String c r => Ascii.eqb c sep || has_char sep r
  end.

(** [s.rsplit(sep, 1)[-1]] when [sep] occurs in [s]; [None] when it does
    not (Python then returns [s] itself, see [rsplit1_last]). *)
Fixpoint after_last (sep : ascii) (s : string) : option string :=
  match s with
  | EmptyString => None
  | String c r =>
      match after_last sep r with
      | Some t => Some t
      | None => if Ascii.eqb c sep then Some r else None
      end
  end.

(** The part before the last [sep], when [sep] occurs in [s]. *)
Fixpoint before_last (sep : ascii) (s : string) : option string :=
  match s with
  | EmptyString => None
  | String c r =>
      match before_last sep r with
      | Some t => Some (String c t)
      | None => if Ascii.eqb c sep then Some EmptyString else None
      end
  end.

(** [s.rsplit(sep, 1)[-1]]. *)
Definition rsplit1_last (sep : ascii) (s : string) : string :=
  match after_last sep s with Some t => t | None => s end.

(** [s.rsplit(sep, 1)[0]]. *)
Definition rsplit1_first (sep : ascii) (s : string) : string :=
  match before_last sep s with Some t => t | None => s end.

(** [s.lstrip(chars)] with the characters to strip given as a test. *)
Fixpoint lstrip_by (p : ascii -> bool) (s : string) : string :=
  match s with
  | EmptyString => EmptyString
  | String c r => if p c then lstrip_by p r else s
  end.

(** [s.rstrip(chars)]. *)
Fixpoint rstrip_by (p : ascii -> bool) (s : string) : string :=
  match s with
  | EmptyString => EmptyString
  | String c r =>
      match rstrip_by p r with
      | EmptyString => if p c then EmptyString else String c EmptyString
      | t => String c t
      end
  end.

Definition strip_by (p : ascii -> bool) (s : string) : string :=
  rstrip_by p (lstrip_by p s).

(** [s.strip()]. *)
Definition strip (s : string) : string := strip_by is_space s.

(** [needle in hay]. *)
Fixpoint contains (needle hay : string) : bool :=
  String.prefix needle hay ||
  match hay with
  | EmptyString => false
  | String _ r => contains needle r
  end.

(** [s.endswith(suffix)]. *)
Fixpoint endswith (s suffix : string) : bool :=
  String.eqb s suffix ||
  match s with
  | EmptyString => false
  | String _ r => endswith r suffix
  end.

(** [s.split()]: the maximal runs of non-space characters. [cur] is the
    run being read, reversed. *)
Fixpoint split_ws_aux (cur : list ascii) (s : string) : list string :=
  let flush := match cur with
               | [] => []
               | _ => [string_of_list_ascii (rev cur)]
               end in
  match s with
  | EmptyString => flush
  | String c r =>
      if is_space c then flush ++ split_ws_aux [] r
      else split_ws_aux (c :: cur) r
  end.
Definition split_ws (s : string) : list string := split_ws_aux [] s.

(** [sep.join(parts)]. *)
Fixpoint join (sep : string) (parts : list string) : string :=
  match parts with
  | [] => EmptyString
  | [p] => p
  | p :: ps => p +:+ sep +:+ join sep ps
  end.

(** [s.replace(a, b)] for one-character [a] and [b]. *)
Fixpoint replace_char (a b : ascii) (s : string) : string :=
  match s with
  | EmptyString => EmptyString
  | String c r => String (if Ascii.eqb c a then b else c) (replace_char a b r)
  end.

(** Keep the characters passing a test ([re.sub] of the complement class
    by the empty string). *)
Fixpoint keep (p : ascii -> bool) (s : string) : string :=
  match s with
  | EmptyString => EmptyString
  | String c r => if p c then String c (keep p r) else keep p r
  end.

End PyStr.

(* ===================================================================== *)
(** ** Configuration *)
(* ===================================================================== *)

Definition ALLOWED_EXT : gset string :=
  {[ "png"; "jpg"; "jpeg"; "gif"; "webp" ]}.

(** [ext = filename.rsplit(".", 1)[-1].lower() if "." in filename else ""]. *)
Definition file_ext (filename : string) : string :=
  if PyStr.has_char "." filename
  then PyStr.lower (PyStr.rsplit1_last "." filename)
  else "".

Definition allowed_file (filename : string) : bool :=
  bool_decide (file_ext filename ∈ ALLOWED_EXT).

(* ===================================================================== *)
(** ** Numbers *)
(* ===================================================================== *)

Module F64.

(** The integer nearest to [q], ties going to the even neighbour. *)
Definition nearest_even (q : Q) : Z :=
  let f := Qfloor q in
  let r := (q - inject_Z f)%Q in
  match (r ?= 1 # 2)%Q with
  | Lt => f
  | Gt => f + 1
  | Eq => if Z.even f then f else f + 1
  end.

Definition pow2 (z : Z) : Q := (2 ^ z)%Q.

(** For [q > 0], the exponent [e] with [2^e <= q < 2^(e+1)]. *)
Definition binade (q : Q) : Z :=
  let k := Z.log2 (Qnum q) - Z.log2 (Zpos (Qden q)) in
  if Qle_bool (pow2 k) q then k else k - 1.

(** Exponent of the unit in the last place of a binary64 value in the
    binade of [q]: 53 significant bits, subnormals below [2^-1022]. *)
Definition ulp_exp (q : Q) : Z := Z.max (binade q - 52) (-1074).

Definition RN_pos (q : Q) : Q :=
  (inject_Z (nearest_even (q / pow2 (ulp_exp q))) * pow2 (ulp_exp q))%Q.

(** Round to nearest binary64, ties to even. *)
Definition RN (q : Q) : Q :=
  Qred match (q ?= 0)%Q with
       | Eq => 0%Q
       | Gt => RN_pos q
       | Lt => (- RN_pos (- q))%Q
       end.

(** [x + y], [x - y] and [x * y] on floats. *)
Definition add (x y : Q) : Q := RN (x + y).
Definition sub (x y : Q) : Q := RN (x - y).
Definition mul (x y : Q) : Q := RN (x * y).

(** [float(x)], and the value of a decimal literal. *)
Definition of_float (x : Q) : Q := RN x.
Definition lit (d : Q) : Q := RN d.

(** [q] is a finite binary64 value. *)
Definition representable (q : Q) : Prop :=
  exists m e : Z,
    (q == inject_Z m * pow2 e)%Q /\ Z.abs m < 2 ^ 53 /\ -1074 <= e <= 971.

End F64.

Module PyNum.

(** [round(x, ndigits)] for a float [x] and [ndigits >= 0]: the exact
    value of [x] is rounded half-to-even at [ndigits] decimals and the
    decimal obtained is converted to the nearest double. *)
Definition round (x : Q) (ndigits : nat) : Q :=
  let scale := inject_Z (Z.pow 10 (Z.of_nat ndigits)) in
  F64.RN (inject_Z (F64.nearest_even (x * scale)) / scale).

(** Value of a run of decimal digits read after [acc]; [None] if a
    character is not a digit. Single underscores between digits are
    skipped, as [int] does. *)
Fixpoint digits_value (acc : Z) (prev_digit : bool) (s : string) : option Z :=
  match s with
  | EmptyString => if prev_digit then Some acc else None
  | String c r =>
      if PyStr.is_digit c
      then digits_value (10 * acc + Z.of_nat (nat_of_ascii c - 48)) true r
      else if Ascii.eqb c "_" && prev_digit
           then digits_value acc false r
           else None
  end.

(** [int(s)] for an ASCII string [s]: surrounding white space (tab to
    carriage return, and space) is ignored, an optional sign is followed
    by decimal digits; anything else raises [ValueError]. *)
Definition int_of_str (s : string) : PyResult Z :=
  let t := PyStr.strip_by PyStr.is_c_space s in
  let bad := Raise ("invalid literal for int() with base 10: " +:+ s) in
  match t with
  | String c r =>
      if Ascii.eqb c "-"
      then match digits_value 0 false r with Some v => Ok (- v) | None => bad end
      else if Ascii.eqb c "+"
      then match digits_value 0 false r with Some v => Ok v | None => bad end
      else match digits_value 0 false t with Some v => Ok v | None => bad end
  | EmptyString => bad
  end.

(** [random.uniform(a, b)] is [a + (b - a) * random()] in float
    arithmetic, with [u] the sample [random()] of the generator,
    [0 <= u < 1]. *)
Definition uniform (a b u : Q) : Q := F64.add a (F64.mul (F64.sub b a) u).

End PyNum.

(* ===================================================================== *)
(** ** Storage layer: the [predictions] table *)
(* ===================================================================== *)

Module Storage.

(** A row of [predictions]. [timestamp] is a clock reading in seconds. *)
Record Prediction : Type := mkPrediction {
  id : Z;
  scan_id : string;
  patient_name : string;
  label : string;
  confidence : Q;
  inference_time : Q;
  image_path : string;
  timestamp : Z;
  true_label : option string
}.

(** The table in insertion order, with the next value of the
    auto-increment counter. *)
Record DB : Type := mkDB {
  rows : list Prediction;
  next_id : Z
}.

Definition empty_db : DB := {| rows := []; next_id := 1 |}.

(** What the database server decides for one session: whether the
    statements succeed, its [CURRENT_TIMESTAMP], and the application's
    [datetime.utcnow()]. *)
Record Session : Type := mkSession {
  db_error : option string;
  current_timestamp : Z;
  utcnow : Z
}.

(** [session.query(Prediction).filter_by(scan_id=...)]. *)
Definition filter_by_scan_id (sid : string) (l : list Prediction) : list Prediction :=
  List.filter (fun r => String.eqb (scan_id r) sid) l.

(** Attribute assignments of the update branch, on the loaded object. *)
Definition assign (obj : Prediction) (pn lb : string) (cf it : Q)
           (ip : string) (ts : Z) : Prediction :=
  {| id := id obj; scan_id := scan_id obj;
     patient_name := pn; label := lb; confidence := cf;
     inference_time := it; image_path := ip; timestamp := ts;
     true_label := true_label obj |}.

(** Flush of a modified object: the row with its primary key is
    replaced. *)
Definition flush_update (obj : Prediction) (l : list Prediction) : list Prediction :=
  List.map (fun r => if Z.eqb (id r) (id obj) then obj else r) l.

(** [insert_prediction]: on success the new table; on an
    [SQLAlchemyError] the transaction is rolled back (the table is the
    one before the call) and the error is raised again. *)
Definition insert_prediction (s : Session) (db : DB)
           (sid pn lb : string) (cf it : Q) (ip : string) : PyResult DB :=
  match db_error s with
  | Some e => Raise e
  | None =>
      match filter_by_scan_id sid (rows db) with
      | [] =>
          let obj := {| id := next_id db; scan_id := sid;
                        patient_name := pn; label := lb; confidence := cf;
                        inference_time := it; image_path := ip;
                        timestamp := current_timestamp s;
                        true_label := None |} in
          Ok {| rows := rows db ++ [obj]; next_id := next_id db + 1 |}
      | [obj] =>
          let obj' := assign obj pn lb cf it ip (utcnow s) in
          Ok {| rows := flush_update obj' (rows db); next_id := next_id db |}
      | _ => Raise "Multiple rows were found when one or none was required"
      end
  end.

(** The dictionary returned by [query_stats]. *)
Record Stats : Type := mkStats {
  total_scans : Z;
  fractures : Z;
  avg_latency : option Q;
  model_accuracy : option Q;
  labelled_count : Z
}.

(** SQL [COUNT(id)] over the rows passing [p]. *)
Definition sql_count (p : Prediction -> bool) (l : list Prediction) : Z :=
  Z.of_nat (length (List.filter p l)).

Definition sum_Q (l : list Q) : Q := fold_right Qplus 0%Q l.

(** SQL [AVG]: [NULL] over no rows. *)
Definition sql_avg (l : list Q) : option Q :=
  match l with
  | [] => None
  | _ => Some (sum_Q l / inject_Z (Z.of_nat (length l)))%Q
  end.

Definition is_labelled (r : Prediction) : bool :=
  match true_label r with Some _ => true | None => false end.

(** [query_stats]. The four counting and averaging queries run first.
    With at least one labelled row, line 119 then calls
    [func.case([...], else_=0.0)]: [func.case] is the generic SQL function
    generator, not the [case] construct, and does not accept a list of
    branches with an [else_] keyword, so the call raises and no accuracy is
    ever computed. [avg_latency] is [float(...)] of the SQL average, taken
    exactly. *)
Definition query_stats (s : Session) (db : DB) : PyResult Stats :=
  match db_error s with
  | Some e => Raise e
  | None =>
      let total := sql_count (fun _ => true) (rows db) in
      let fractured :=
        sql_count (fun r => String.eqb (label r) "Fractured") (rows db) in
      let avg_lat := sql_avg (List.map inference_time (rows db)) in
      let labelled := sql_count is_labelled (rows db) in
      if 0 <? labelled
      then Raise "TypeError: unexpected keyword argument 'else_'"
      else
        Ok {| total_scans := total;
              fractures := fractured;
              avg_latency :=
                match avg_lat with
                | Some a => Some (F64.of_float a)
                | None => None
                end;
              model_accuracy := None;
              labelled_count := labelled |}
  end.

(** [ORDER BY id DESC]: insertion of a row into a list sorted by
    descending primary key. *)
Fixpoint insert_desc (r : Prediction) (l : list Prediction) : list Prediction :=
  match l with
  | [] => [r]
  | x :: t => if id x <=? id r then r :: l else x :: insert_desc r t
  end.

Definition order_by_id_desc (l : list Prediction) : list Prediction :=
  fold_right insert_desc [] l.

(** [LIMIT n]. The MySQL server rejects a negative row count. *)
Definition sql_limit (n : Z) (l : list Prediction) : PyResult (list Prediction) :=
  if n <? 0
  then Raise "You have an error in your SQL syntax"
  else Ok (firstn (Z.to_nat n) l).

(** One dictionary of the list returned by [query_recent];
    [r_timestamp] stands for [timestamp.isoformat()]. *)
Record RecentRow : Type := mkRecentRow {
  r_scan_id : string;
  r_patient_name : string;
  r_label : string;
  r_confidence : Q;
  r_inference_time : Q;
  r_image_path : string;
  r_timestamp : option Z
}.

Definition to_recent_row (r : Prediction) : RecentRow :=
  {| r_scan_id := scan_id r;
     r_patient_name := patient_name r;
     r_label := label r;
     r_confidence := confidence r;
     r_inference_time := inference_time r;
     r_image_path := image_path r;
     r_timestamp := Some (timestamp r) |}.

(** The rows selected by [query_recent], before they are turned into
    dictionaries. *)
Definition recent_rows (s : Session) (db : DB) (limit : Z)
  : PyResult (list Prediction) :=
  match db_error s with
  | Some e => Raise e
  | None => sql_limit limit (order_by_id_desc (rows db))
  end.

Definition query_recent (s : Session) (db : DB) (limit : Z)
  : PyResult (list RecentRow) :=
  match recent_rows s db limit with
  | Ok rs => Ok (List.map to_recent_row rs)
  | Raise e => Raise e
  end.

End Storage.

(* ===================================================================== *)
(** ** Paths, files and the werkzeug helper *)
(* ===================================================================== *)

Module Os.

(** [os.path.join(a, b)] on POSIX. *)
Definition path_join (a b : string) : string :=
  match b with
  | String "/" _ => b
  | _ => if String.eqb a "" || PyStr.endswith a "/"
         then a +:+ b
         else a +:+ "/" +:+ b
  end.

(** [os.path.basename(p)]: what follows the last slash. *)
Definition basename (p : string) : string := PyStr.rsplit1_last "/" p.

(** What a path holds: a directory, the bytes of an upload as written by
    [file.save], or the PNG encoding of decoded image bytes. *)
Inductive Blob : Type :=
| Dir
| Uploaded (data : string)
| PngOf (data : string).

(** [os.path.exists(p)]. *)
Definition path_exists (fs : gmap string Blob) (p : string) : bool :=
  bool_decide (is_Some (fs !! p)).

End Os.

Module Werkzeug.

Definition is_ascii (c : ascii) : bool := (nat_of_ascii c <? 128)%nat.

(** The class [A-Za-z0-9_.-]. *)
Definition is_safe (c : ascii) : bool :=
  PyStr.is_upper c || PyStr.is_lower c || PyStr.is_digit c ||
  Ascii.eqb c "_" || Ascii.eqb c "." || Ascii.eqb c "-".

Definition is_dot_or_underscore (c : ascii) : bool :=
  Ascii.eqb c "." || Ascii.eqb c "_".

(** [werkzeug.utils.secure_filename] on a POSIX host: non-ASCII
    characters are dropped, path separators become spaces, runs of white
    space become single underscores, characters outside [A-Za-z0-9_.-]
    are removed and leading and trailing dots and underscores are
    stripped. *)
Definition secure_filename (filename : string) : string :=
  let f := PyStr.keep is_ascii filename in
  let f := PyStr.replace_char "/" " " f in
  let f := PyStr.join "_" (PyStr.split_ws f) in
  let f := PyStr.keep is_safe f in
  PyStr.strip_by is_dot_or_underscore f.

End Werkzeug.

(* ===================================================================== *)
(** ** Requests and responses *)
(* ===================================================================== *)

Record FileStorage : Type := mkFileStorage {
  filename : string;
  content : string
}.

Record Request : Type := mkRequest {
  method : string;
  files : gmap string FileStorage;
  form : gmap string string;
  args : gmap string string;
  headers : gmap string string
}.

(** Values placed in a JSON body or a template context. *)
Inductive JVal : Type :=
| JStr (s : string)
| JNum (q : Q)
| JRecent (l : list Storage.RecentRow).

(** One PDF drawing instruction of the report canvas. *)
Inductive DrawOp : Type :=
| SetFont (name : string) (size : Z)
| DrawString (x y : Z) (text : string)
| DrawImage (path : string) (x y width height : Z).

Inductive Body : Type :=
| Json (fields : list (string * JVal))
| Html (template : string) (context : list (string * JVal))
| SendFile (pages : list (list DrawOp)) (download_name mimetype : string)
           (as_attachment : bool).

(** A response; a view that returns no status code answers 200. *)
Record Response : Type := mkResponse {
  status : Z;
  body : Body
}.

(** [dict.get(key, default)]. *)
Definition dict_get (d : gmap string string) (key default : string) : string :=
  match d !! key with Some v => v | None => default end.

Definition request_wants_json (req : Request) : bool :=
  let accept := dict_get (headers req) "Accept" "" in
  let xrw := dict_get (headers req) "X-Requested-With" "" in
  PyStr.contains "application/json" accept || String.eqb xrw "XMLHttpRequest".

(** The two shapes every error exit of [predict] takes:
    [jsonify({"error": msg[, "details": d]}), code] when the client wants
    JSON, and otherwise [render_template("dashboard.html", error=...)],
    returned without a status code. *)
Definition error_response (req : Request) (msg : string)
           (details : option string) (code : Z) : Response :=
  if request_wants_json req
  then {| status := code;
          body := Json (("error", JStr msg) ::
                        match details with
                        | Some d => [("details", JStr d)]
                        | None => []
                        end) |}
  else {| status := 200;
          body := Html "dashboard.html"
                       [("error", JStr match details with
                                       | Some d => msg +:+ ": " +:+ d
                                       | None => msg
                                       end)] |}.

(** A JSON field or template variable of the body holds the text [msg]. *)
Definition body_has_text (msg : string) (b : Body) : Prop :=
  match b with
  | Json fields => exists k, (k, JStr msg) ∈ fields
  | Html _ ctx => exists k, (k, JStr msg) ∈ ctx
  | SendFile _ _ _ _ => False
  end.

(* ===================================================================== *)
(** ** Process state and environment *)
(* ===================================================================== *)

(** The loaded Keras model: the first output
    [np.asarray(model.predict(x)).flatten()[0]] on the preprocessed image
    [x] ([None] when called without input), a finite single-precision
    number; it may raise. *)
Definition Model : Type := option Os.Blob -> PyResult Q.

(** Module-level globals fixed at start-up. *)
Record Config : Type := mkConfig {
  PROJECT_ROOT : string;
  TF_AVAILABLE : bool;
  model : option Model
}.

Definition STATIC (cfg : Config) : string := Os.path_join (PROJECT_ROOT cfg) "static".
Definition UPLOAD_DIR (cfg : Config) : string := Os.path_join (STATIC cfg) "uploads".

(** Outcomes decided outside the program during one request. *)
Record Env : Type := mkEnv {
  now_upload : string;             (* datetime.now().strftime("%Y%m%d%H%M%S%f") *)
  now_scan : string;               (* datetime.now().strftime('%y%m%d%H%M%S') *)
  now_date : string;               (* datetime.now().strftime("%B %d, %Y") *)
  save_error : option string;      (* file.save raises *)
  save_partial : option string;    (* what a failing file.save has written:
                                      [None] if the destination could not
                                      be opened, else the bytes copied
                                      before the failure *)
  convert_error : option string;   (* Image.open/convert/save raises *)
  remove_fails : bool;             (* os.remove raises *)
  preprocess_error : option string;(* preprocess_image raises *)
  random_sample : Q;               (* random.random() *)
  time_t0 : Q;                     (* time.time() before inference *)
  time_t1 : Q;                     (* time.time() after inference *)
  image_reader_fails : bool;       (* ImageReader/drawImage raises *)
  session : Storage.Session
}.

(** What persists between requests. *)
Record World : Type := mkWorld {
  fs : gmap string Os.Blob;
  db : Storage.DB
}.

(* ===================================================================== *)
(** ** Inference adapter and label policy *)
(* ===================================================================== *)

(** [predict_from_model(input_data)]: the demo value, or [float(...)] of
    the first output of the model. *)
Definition predict_from_model (cfg : Config) (env : Env)
           (input_data : option Os.Blob) : PyResult Q :=
  match model cfg with
  | None =>
      Ok (PyNum.uniform (F64.lit (75 # 100)) (F64.lit (95 # 100))
            (random_sample env))
  | Some m =>
      match m input_data with
      | Ok v => Ok (F64.of_float v)
      | Raise e => Raise e
      end
  end.

(** [label = "Normal" if prob > 0.5 else "Fractured"]. *)
Definition label_of (prob : Q) : string :=
  if negb (Qle_bool prob (1 # 2)) then "Normal" else "Fractured".

(** [confidence = float(prob if label == "Normal" else 1.0 - prob)]. *)
Definition confidence_of (prob : Q) : Q :=
  F64.of_float
    (if String.eqb (label_of prob) "Normal" then prob else F64.sub 1 prob).

(** [confidence_pct = round(confidence * 100.0, 2)]. *)
Definition confidence_pct_of (confidence : Q) : Q :=
  PyNum.round (F64.mul confidence 100) 2.

(* ===================================================================== *)
(** ** POST /predict *)
(* ===================================================================== *)

(** The values computed by lines 258-281, as the persistence step and the
    response use them. *)
Record Scan : Type := mkScan {
  s_scan_id : string;
  s_patient_name : string;
  s_label : string;
  s_confidence : Q;
  s_confidence_pct : Q;
  s_inference_time : Q;
  s_saved_name : string
}.

Definition s_image_path (c : Scan) : string := "/static/uploads/" +:+ s_saved_name c.

(** How the body of [predict] leaves lines 197-281: by a [return], by an
    exception that reaches the outer handler, or by falling through to the
    persistence step. Each carries the upload directory as left behind. *)
Inductive Progress : Type :=
| Returned (r : Response) (fs' : gmap string Os.Blob)
| Unhandled (msg : string) (fs' : gmap string Os.Blob)
| Reached (c : Scan) (fs' : gmap string Os.Blob).

(** Lines 257-281: inference, timing and the label policy, for the file
    saved under [saved_name] at [filepath]. *)
Definition infer_and_label (cfg : Config) (env : Env) (req : Request)
           (patient : string) (saved_name filepath : string)
           (fs' : gmap string Os.Blob) : Progress :=
  let finish (prob : Q) : Progress :=
    let inference_time := PyNum.round (F64.sub (time_t1 env) (time_t0 env)) 4 in
    let label := label_of prob in
    let confidence := confidence_of prob in
    let confidence_pct := confidence_pct_of confidence in
    let scan_id := "A" +:+ now_scan env in
    Reached {| s_scan_id := scan_id; s_patient_name := patient;
               s_label := label; s_confidence := confidence;
               s_confidence_pct := confidence_pct;
               s_inference_time := inference_time;
               s_saved_name := saved_name |} fs' in
  if TF_AVAILABLE cfg && bool_decide (is_Some (model cfg))
  then
    match preprocess_error env with
    | Some e => Returned (error_response req "Prediction error" (Some e) 500) fs'
    | None =>
        match predict_from_model cfg env (fs' !! filepath) with
        | Raise e => Returned (error_response req "Prediction error" (Some e) 500) fs'
        | Ok prob => finish prob
        end
    end
  else
    match predict_from_model cfg env None with
    | Raise e => Unhandled e fs'
    | Ok prob => finish prob
    end.

(** Lines 197-281 of [predict]. *)
Definition predict_steps (cfg : Config) (env : Env) (req : Request)
           (fs0 : gmap string Os.Blob) : Progress :=
  match files req !! "file" with
  | None => Returned (error_response req "No file uploaded" None 400) fs0
  | Some file =>
      if String.eqb (filename file) ""
      then Returned (error_response req "No file selected" None 400) fs0
      else
        let patient := PyStr.strip (dict_get (form req) "patient_name" "") in
        if String.eqb patient ""
        then Returned (error_response req "Patient name is required." None 400) fs0
        else if negb (allowed_file (filename file))
        then Returned (error_response req "File type not allowed" None 400) fs0
        else
          let fname := Werkzeug.secure_filename (filename file) in
          let saved_name := now_upload env +:+ "_" +:+ fname in
          let filepath := Os.path_join (UPLOAD_DIR cfg) saved_name in
          match save_error env with
          | Some e =>
              Unhandled e
                match save_partial env with
                | Some written => <[filepath := Os.Uploaded written]> fs0
                | None => fs0
                end
          | None =>
              let fs1 := <[filepath := Os.Uploaded (content file)]> fs0 in
              if String.eqb (file_ext fname) "webp"
              then
                match convert_error env with
                | Some e =>
                    Returned (error_response req "WEBP conversion failed" (Some e) 400) fs1
                | None =>
                    let base_without_ext := PyStr.rsplit1_first "." saved_name in
                    let new_name := base_without_ext +:+ ".png" in
                    let new_path := Os.path_join (UPLOAD_DIR cfg) new_name in
                    let fs2 := <[new_path := Os.PngOf (content file)]> fs1 in
                    let fs3 := if remove_fails env then fs2 else delete filepath fs2 in
                    infer_and_label cfg env req patient new_name new_path fs3
                end
              else infer_and_label cfg env req patient saved_name filepath fs1
          end
  end.

(** The response of lines 289-309 for a computed scan. *)
Definition success_response (env : Env) (req : Request) (c : Scan) : Response :=
  if request_wants_json req
  then {| status := 200;
          body := Json [("id", JStr (s_scan_id c));
                        ("label", JStr (s_label c));
                        ("confidence", JNum (s_confidence c));
                        ("confidence_pct", JNum (s_confidence_pct c));
                        ("image_path", JStr (s_image_path c));
                        ("patient_name", JStr (s_patient_name c));
                        ("inference_time", JNum (s_inference_time c))] |}
  else {| status := 200;
          body := Html "result.html"
                       [("prediction", JStr (s_label c));
                        ("accuracy", JNum (s_confidence_pct c));
                        ("image_path", JStr (s_image_path c));
                        ("doctor_note",
                         JStr "Please consult your physician if symptoms persist.");
                        ("current_date", JStr (now_date env));
                        ("patient_name", JStr (s_patient_name c))] |}.

(** Lines 283-287: the insert, with any exception logged and dropped. *)
Definition persist (env : Env) (c : Scan) (d : Storage.DB) : Storage.DB :=
  match Storage.insert_prediction (session env) d (s_scan_id c) (s_patient_name c)
          (s_label c) (s_confidence c) (s_inference_time c) (s_image_path c) with
  | Ok d' => d'
  | Raise _ => d
  end.

(** The view [predict]: the response and the state it leaves. *)
Definition predict (cfg : Config) (env : Env) (req : Request) (w : World)
  : Response * World :=
  match predict_steps cfg env req (fs w) with
  | Returned r fs' => (r, {| fs := fs'; db := db w |})
  | Unhandled e fs' =>
      (error_response req "Unhandled server error" (Some e) 500,
       {| fs := fs'; db := db w |})
  | Reached c fs' =>
      (success_response env req c, {| fs := fs'; db := persist env c (db w) |})
  end.

(* ===================================================================== *)
(** ** GET /api/recent *)
(* ===================================================================== *)

(** [n = int(request.args.get("n", 10))]. *)
Definition recent_limit (req : Request) : PyResult Z :=
  match args req !! "n" with
  | Some s => PyNum.int_of_str s
  | None => Ok 10
  end.

Definition recent_failure : Response :=
  {| status := 500; body := Json [("error", JStr "Failed to fetch recent rows")] |}.

Definition api_recent (env : Env) (req : Request) (w : World) : Response :=
  match recent_limit req with
  | Raise _ => recent_failure
  | Ok n =>
      match Storage.query_recent (session env) (db w) n with
      | Raise _ => recent_failure
      | Ok rows => {| status := 200; body := Json [("recent", JRecent rows)] |}
      end
  end.

(* ===================================================================== *)
(** ** GET/POST /download_report *)
(* ===================================================================== *)

Module Canvas.

(** A ReportLab canvas: the finished pages and the instructions of the
    page being drawn. *)
Record t : Type := mk {
  pages : list (list DrawOp);
  code : list DrawOp
}.

Definition new : t := {| pages := []; code := [] |}.

Definition emit (op : DrawOp) (c : t) : t :=
  {| pages := pages c; code := code c ++ [op] |}.

Definition showPage (c : t) : t :=
  {| pages := pages c ++ [code c]; code := [] |}.

(** [save]: a page still being drawn is closed first. *)
Definition save (c : t) : list (list DrawOp) :=
  match code c with
  | [] => pages c
  | _ => pages (showPage c)
  end.

End Canvas.

(** Lines 361-368: the path of the image to embed, if one resolves. *)
Definition resolve_image (cfg : Config) (files_on_disk : gmap string Os.Blob)
           (image_path : option string) : option string :=
  match image_path with
  | None => None
  | Some "" => None
  | Some p =>
      let candidate := PyStr.lstrip_by (Ascii.eqb "/") p in
      let candidate2 := Os.path_join (UPLOAD_DIR cfg) (Os.basename candidate) in
      if Os.path_exists files_on_disk candidate then Some candidate
      else if Os.path_exists files_on_disk candidate2 then Some candidate2
      else None
  end.

Definition download_report (cfg : Config) (env : Env) (req : Request)
           (w : World) : Response :=
  let data := if String.eqb (method req) "POST" then form req else args req in
  let prediction := dict_get data "prediction" "Unknown" in
  let accuracy := dict_get data "accuracy" "N/A" in
  let image_path := data !! "image_path" in
  let patient_name := dict_get data "patient_name" "Uploaded Patient" in
  let current_date := dict_get data "current_date" (now_date env) in
  let c := Canvas.new in
  let c := Canvas.emit (SetFont "Helvetica-Bold" 20) c in
  let c := Canvas.emit (DrawString 40 800 "X-ray Analysis Report") c in
  let c := Canvas.emit (SetFont "Helvetica" 12) c in
  let c := Canvas.emit (DrawString 40 780 ("Date: " +:+ current_date)) c in
  let c := Canvas.emit (DrawString 40 760 ("Patient: " +:+ patient_name)) c in
  let c := Canvas.emit (DrawString 40 740 ("Diagnosis: " +:+ prediction)) c in
  let c := Canvas.emit (DrawString 40 720 ("Confidence: " +:+ accuracy +:+ "%")) c in
  let use_path := resolve_image cfg (fs w) image_path in
  let c := match use_path with
           | None | Some "" => c
           | Some p =>
               if image_reader_fails env then c
               else Canvas.emit (DrawImage p 40 380 300 300) c
           end in
  let c := Canvas.emit (DrawString 40 360 "Doctor's Note:") c in
  let c := Canvas.emit (SetFont "Helvetica-Oblique" 12) c in
  let c := Canvas.emit
             (DrawString 60 340
                "Always consult a medical professional if you have any concerns.") c in
  let c := Canvas.showPage c in
  {| status := 200;
     body := SendFile (Canvas.save c) "xray_report.pdf" "application/pdf" true |}.

(* ===================================================================== *)
(** ** Vocabulary of the properties *)
(* ===================================================================== *)

(** Lookup of a key in a JSON object or template context. *)
Fixpoint get_field (k : string) (l : list (string * JVal)) : option JVal :=
  match l with
  | [] => None
  | (k', v) :: t => if String.eqb k' k then Some v else get_field k t
  end.

(** A field of a response: [kj] names it in a JSON body, [kh] in the
    context of a rendered page. *)
Definition response_field (kj kh : string) (r : Response) : option JVal :=
  match body r with
  | Json fields => get_field kj fields
  | Html _ ctx => get_field kh ctx
  | SendFile _ _ _ _ => None
  end.

Definition response_label (r : Response) : option JVal :=
  response_field "label" "prediction" r.
Definition response_confidence_pct (r : Response) : option JVal :=
  response_field "confidence_pct" "accuracy" r.
Definition response_error (r : Response) : option JVal :=
  response_field "error" "error" r.


(** The upload directory a run of [predict_steps] leaves. *)
Definition progress_fs (p : Progress) : gmap string Os.Blob :=
  match p with
  | Returned _ f | Unhandled _ f | Reached _ f => f
  end.

(** The scan built by lines 277-281 from the model output [p]. *)
Definition scan_of (env : Env) (patient saved : string) (p : Q) : Scan :=
  {| s_scan_id := "A" +:+ now_scan env; s_patient_name := patient;
     s_label := label_of p; s_confidence := confidence_of p;
     s_confidence_pct := confidence_pct_of (confidence_of p);
     s_inference_time := PyNum.round (F64.sub (time_t1 env) (time_t0 env)) 4;
     s_saved_name := saved |}.

(** The four checks of lines 198-227 let the request through. *)
Definition passes_validation (req : Request) (file : FileStorage) : Prop :=
  files req !! "file" = Some file /\
  filename file <> "" /\
  PyStr.strip (dict_get (form req) "patient_name" "") <> "" /\
  allowed_file (filename file) = true.

(** The name the upload is saved under (line 231). *)
Definition upload_name (env : Env) (file : FileStorage) : string :=
  now_upload env +:+ "_" +:+ Werkzeug.secure_filename (filename file).

(** The name of the PNG written for a WEBP upload (lines 240-241). *)
Definition png_name (env : Env) (file : FileStorage) : string :=
  PyStr.rsplit1_first "." (upload_name env file) +:+ ".png".

(** The run stopped before inference with this response. *)
Definition aborted_with (p : Progress) (r : Response) : Prop :=
  exists f, p = Returned r f.

(** The extensions the specification lists as supported. *)
Definition SUPPORTED : list string := ["png"; "jpg"; "jpeg"; "gif"; "webp"].

(** The specification's wording of an acceptable name: the segment after
    the last dot, compared without regard to case, is a supported
    extension. *)
Definition has_supported_extension (name : string) : Prop :=
  exists stem ext,
    name = stem +:+ "." +:+ ext /\
    PyStr.has_char "." ext = false /\
    PyStr.lower ext ∈ SUPPORTED.




Definition is_draw_image (op : DrawOp) : bool :=
  match op with DrawImage _ _ _ _ _ => true | _ => false end.

(** The page embeds an image. *)
Definition has_image (page : list DrawOp) : bool := existsb is_draw_image page.

Module Table.
Import Storage.

(** One call of the upsert, with the session it runs in. *)
Record Upsert : Type := mkUpsert {
  u_session : Session;
  u_scan_id : string;
  u_patient_name : string;
  u_label : string;
  u_confidence : Q;
  u_inference_time : Q;
  u_image_path : string
}.

Definition call (d : DB) (u : Upsert) : PyResult DB :=
  insert_prediction (u_session u) d (u_scan_id u) (u_patient_name u)
    (u_label u) (u_confidence u) (u_inference_time u) (u_image_path u).

(** The table after a call; a call that raises has been rolled back. *)
Definition after (d : DB) (u : Upsert) : DB :=
  match call d u with Ok d' => d' | Raise _ => d end.

Definition run (calls : list Upsert) (d : DB) : DB := fold_left after calls d.

(** The row the update branch of a call writes over [old]. *)
Definition assigned (u : Upsert) (old : Prediction) : Prediction :=
  assign old (u_patient_name u) (u_label u) (u_confidence u)
    (u_inference_time u) (u_image_path u) (utcnow (u_session u)).

(** Invariant of the table: primary keys grow with insertion order and
    lie below the auto-increment counter, and no [scan_id] occurs
    twice. *)
Record ok (d : DB) : Prop := mk_ok {
  ids_increasing : StronglySorted Z.lt (List.map id (rows d));
  ids_below_next : Forall (fun i => i < next_id d) (List.map id (rows d));
  scan_ids_unique : NoDup (List.map scan_id (rows d))
}.


End Table.

(* ===================================================================== *)
(** ** Sample inputs *)
(* ===================================================================== *)

Module Sample.

Definition demo_cfg : Config :=
  {| PROJECT_ROOT := "/srv/app"; TF_AVAILABLE := false; model := None |}.

Definition healthy : Storage.Session :=
  {| Storage.db_error := None;
     Storage.current_timestamp := 1767268800;
     Storage.utcnow := 1767268800 |}.


Definition env : Env :=
  {| now_upload := "20260101120000000000"; now_scan := "260101120000";
     now_date := "January 01, 2026";
     save_error := None; save_partial := None;
     convert_error := None; remove_fails := false;
     preprocess_error := None; random_sample := 1 # 2;
     time_t0 := 0; time_t1 := 1 # 1024;
     image_reader_fails := false; session := healthy |}.

Definition env_bad_webp : Env :=
  {| now_upload := "20260101120000000000"; now_scan := "260101120000";
     now_date := "January 01, 2026";
     save_error := None; save_partial := None;
     convert_error := Some "cannot identify image file";
     remove_fails := false;
     preprocess_error := None; random_sample := 1 # 2;
     time_t0 := 0; time_t1 := 1 # 1024;
     image_reader_fails := false; session := healthy |}.

Definition env_locked_file : Env :=
  {| now_upload := "20260101120000000000"; now_scan := "260101120000";
     now_date := "January 01, 2026";
     save_error := None; save_partial := None;
     convert_error := None; remove_fails := true;
     preprocess_error := None; random_sample := 1 # 2;
     time_t0 := 0; time_t1 := 1 # 1024;
     image_reader_fails := false; session := healthy |}.

Definition json_headers : gmap string string :=
  {[ "Accept" := "application/json" ]}.

(** A browser form post of [name] for patient Jane Doe. *)
Definition upload (name : string) (hd : gmap string string) : Request :=
  {| method := "POST";
     files := {[ "file" := {| filename := name; content := "RIFF....WEBP" |} ]};
     form := {[ "patient_name" := "Jane Doe" ]};
     args := ∅; headers := hd |}.

(** A post whose multipart body has no ["file"] part. *)
Definition no_file (hd : gmap string string) : Request :=
  {| method := "POST"; files := ∅;
     form := {[ "patient_name" := "Jane Doe" ]};
     args := ∅; headers := hd |}.

Definition get (query : gmap string string) : Request :=
  {| method := "GET"; files := ∅; form := ∅; args := query; headers := ∅ |}.

Definition world : World := {| fs := ∅; db := Storage.empty_db |}.

Definition row (i : Z) (sid lb : string) (tl : option string) : Storage.Prediction :=
  {| Storage.id := i; Storage.scan_id := sid; Storage.patient_name := "Jane Doe";
     Storage.label := lb; Storage.confidence := 7 # 8;
     Storage.inference_time := 1 # 64;
     Storage.image_path := "/static/uploads/x.png";
     Storage.timestamp := 1767268800; Storage.true_label := tl |}.

Definition two_rows : Storage.DB :=
  {| Storage.rows := [row 1 "A260101120000" "Normal" None;
                      row 2 "A260101120001" "Fractured" (Some "Fractured")];
     Storage.next_id := 3 |}.

Definition upsert (sid pn : string) : Table.Upsert :=
  {| Table.u_session := healthy; Table.u_scan_id := sid;
     Table.u_patient_name := pn; Table.u_label := "Normal";
     Table.u_confidence := 3 # 4; Table.u_inference_time := 1 # 32;
     Table.u_image_path := "/static/uploads/y.png" |}.

End Sample.

(* ===================================================================== *)
(** ** Start-up: optional TensorFlow and model loading *)
(* ===================================================================== *)

(** What the process finds when the module is loaded: whether the
    TensorFlow imports of lines 19-25 succeed, whether [MODEL_PATH] exists,
    and what [load_model(MODEL_PATH)] gives. *)
Record Startup : Type := mkStartup {
  tf_imports_ok : bool;
  model_path_exists : bool;
  load_model : PyResult Model
}.

(** Lines 152-163: [model] stays [None] unless TensorFlow is available,
    the file exists and loading it does not raise. *)
Definition loaded_model (st : Startup) : option Model :=
  if tf_imports_ok st
  then if model_path_exists st
       then match load_model st with
            | Ok m => Some m
            | Raise _ => None
            end
       else None
  else None.

(** The globals after start-up. *)
Definition startup_config (root : string) (st : Startup) : Config :=
  {| PROJECT_ROOT := root;
     TF_AVAILABLE := tf_imports_ok st;
     model := loaded_model st |}.

(* ===================================================================== *)
(** ** GET /api/stats *)
(* ===================================================================== *)

(** The JSON body of [/api/stats]: the dictionary of [query_stats], or the
    error object. *)
Inductive StatsBody : Type :=
| StatsJson (st : Storage.Stats)
| StatsError (msg : string).

(** [api_stats]: the status code and the body. *)
Definition api_stats (env : Env) (w : World) : Z * StatsBody :=
  match Storage.query_stats (session env) (db w) with
  | Ok st => (200, StatsJson st)
  | Raise _ => (500, StatsError "Failed to fetch stats")
  end.

(** The same request sent with other headers. *)
Definition with_headers (req : Request) (hd : gmap string string) : Request :=
  {| method := method req; files := files req; form := form req;
     args := args req; headers := hd |}.

(* ===================================================================== *)
(** ** Further sample inputs *)
(* ===================================================================== *)

Module Fixture.

(** A loaded model that answers 0.25 for every image. *)
Definition fractured_model : Model := fun _ => Ok (1 # 4).

(** A loaded model whose prediction raises. *)
Definition broken_model : Model := fun _ => Raise "Graph execution error".

Definition cfg_with (m : Model) : Config :=
  {| PROJECT_ROOT := "/srv/app"; TF_AVAILABLE := true; model := Some m |}.

Definition env_disk_full : Env :=
  {| now_upload := "20260101120000000000"; now_scan := "260101120000";
     now_date := "January 01, 2026";
     save_error := Some "No space left on device";
     save_partial := Some "PNG";
     convert_error := None; remove_fails := false;
     preprocess_error := None; random_sample := 1 # 2;
     time_t0 := 0; time_t1 := 1 # 1024;
     image_reader_fails := false; session := Sample.healthy |}.

(** A browser form post of [name] with the patient field as given. *)
Definition upload_for (name patient : string) (hd : gmap string string) : Request :=
  {| method := "POST";
     files := {[ "file" := {| filename := name; content := "PNG...." |} ]};
     form := {[ "patient_name" := patient ]};
     args := ∅; headers := hd |}.

Definition world_with (d : Storage.DB) : World := {| fs := ∅; db := d |}.

(** A disk holding one earlier upload and a file outside the upload
    directory. *)
Definition disk : gmap string Os.Blob :=
  {[ "/srv/app/static/uploads/old.png" := Os.PngOf "old";
     "config/secret.png" := Os.Uploaded "secret" ]}.

End Fixture.

(* ===================================================================== *)
(** * Properties *)
(* ===================================================================== *)

(** ** Binary64 rounding and the label policy *)

Section Float64.
Import F64.
Open Scope Q_scope.

Lemma nearest_even_floor (q : Q) :
  (Qfloor q <= nearest_even q <= Qfloor q + 1)%Z.
Proof.
  unfold nearest_even.
  destruct (q - inject_Z (Qfloor q) ?= 1 # 2); [destruct (Z.even _) | |]; lia.
Qed.

Lemma nearest_even_bounds (q : Q) (a b : Z) :
  inject_Z a <= q -> q <= inject_Z b -> (a <= nearest_even q <= b)%Z.
Proof.
  intros Ha Hb.
  pose proof (nearest_even_floor q) as [Hlo Hhi].
  assert (Hfa : (a <= Qfloor q)%Z).
  { rewrite <- (Qfloor_Z a). now apply Qfloor_resp_le. }
  assert (Hfb : (Qfloor q <= b)%Z).
  { rewrite <- (Qfloor_Z b). now apply Qfloor_resp_le. }
  split; [lia |].
  destruct (Z.eq_dec (Qfloor q) b) as [Heq | Hne]; [| lia].
  unfold nearest_even.
  assert (Hr : (q - inject_Z (Qfloor q) ?= 1 # 2) = Lt).
  { apply (proj1 (Qlt_alt _ _)). rewrite Heq. lra. }
  rewrite Hr. lia.
Qed.

(** Rounding to the nearest integer errs by at most one half. *)
Lemma nearest_even_error (q : Q) : Qabs (inject_Z (nearest_even q) - q) <= 1 # 2.
Proof.
  pose proof (Qfloor_le q) as Hlo. pose proof (Qlt_floor q) as Hhi.
  rewrite inject_Z_plus in Hhi. change (inject_Z 1) with 1 in Hhi.
  apply Qabs_Qle_condition. unfold nearest_even.
  destruct (q - inject_Z (Qfloor q) ?= 1 # 2) eqn:E.
  - apply Qeq_alt in E.
    destruct (Z.even (Qfloor q)); [| rewrite inject_Z_plus; change (inject_Z 1) with 1];
      split; lra.
  - apply Qlt_alt in E. split; lra.
  - apply Qgt_alt in E. rewrite inject_Z_plus. change (inject_Z 1) with 1. split; lra.
Qed.

(** At a tie the even neighbour is taken. *)
Lemma nearest_even_tie (q : Q) :
  Qabs (inject_Z (nearest_even q) - q) == 1 # 2 -> Z.even (nearest_even q) = true.
Proof.
  pose proof (Qfloor_le q) as Hlo. pose proof (Qlt_floor q) as Hhi.
  rewrite inject_Z_plus in Hhi. change (inject_Z 1) with 1 in Hhi.
  unfold nearest_even.
  destruct (q - inject_Z (Qfloor q) ?= 1 # 2) eqn:E.
  - destruct (Z.even (Qfloor q)) eqn:Ev; [auto |]. intros _.
    rewrite Z.even_add, Ev. reflexivity.
  - apply Qlt_alt in E. intros H. exfalso.
    rewrite Qabs_neg in H by lra. lra.
  - apply Qgt_alt in E. rewrite inject_Z_plus. change (inject_Z 1) with 1.
    intros H. exfalso. rewrite Qabs_pos in H by lra. lra.
Qed.

Lemma pow2_pos (z : Z) : 0 < pow2 z.
Proof. apply Qpower_0_lt. reflexivity. Qed.

Lemma pow2_add (a b : Z) : pow2 (a + b) == pow2 a * pow2 b.
Proof. apply Qpower_plus. discriminate. Qed.

Lemma pow2_le (a b : Z) : (a <= b)%Z -> pow2 a <= pow2 b.
Proof. intros H. apply Qpower_le_compat_l; [exact H | discriminate]. Qed.

Lemma pow2_lt_inv (a b : Z) : pow2 a < pow2 b -> (a < b)%Z.
Proof. intros H. apply (Qpower_lt_compat_l_inv 2); [exact H | reflexivity]. Qed.

Lemma pow2_inject (n : Z) : (0 <= n)%Z -> pow2 n == inject_Z (2 ^ n).
Proof. intros H. unfold pow2. now rewrite Zpower_Qpower. Qed.

Lemma Q_num_den (q : Q) : q * inject_Z (Zpos (Qden q)) == inject_Z (Qnum q).
Proof.
  destruct q as [n d]. unfold Qeq, Qmult, inject_Z. simpl. lia.
Qed.

Lemma log2_bounds (n : Z) :
  (0 < n)%Z -> pow2 (Z.log2 n) <= inject_Z n /\ inject_Z n < pow2 (Z.log2 n + 1).
Proof.
  intros Hn. pose proof (Z.log2_nonneg n) as H0.
  destruct (Z.log2_spec n Hn) as [Hlo Hhi].
  rewrite !pow2_inject by lia. rewrite <- Zle_Qle, <- Zlt_Qlt.
  replace (Z.log2 n + 1)%Z with (Z.succ (Z.log2 n)) by lia. auto.
Qed.

Lemma binade_lower (q : Q) : 0 < q -> pow2 (binade q) <= q.
Proof.
  intros Hq. unfold binade.
  destruct (Qle_bool _ q) eqn:E; [now apply Qle_bool_iff in E |].
  assert (Hn : (0 < Qnum q)%Z).
  { destruct q as [n d]. unfold Qlt in Hq. simpl in *. lia. }
  destruct (log2_bounds (Qnum q) Hn) as [Hn1 _].
  destruct (log2_bounds (Zpos (Qden q)) eq_refl) as [_ Hd2].
  pose proof (Q_num_den q) as Hq'.
  set (ln := Z.log2 (Qnum q)) in *. set (ld := Z.log2 (Zpos (Qden q))) in *.
  assert (Hsplit : pow2 ln == pow2 (ln - ld - 1) * pow2 (ld + 1)).
  { rewrite <- pow2_add. now replace (ln - ld - 1 + (ld + 1))%Z with ln by lia. }
  pose proof (pow2_pos (ln - ld - 1)) as Hp.
  set (D := inject_Z (Zpos (Qden q))) in *.
  assert (HD : 0 < D) by (unfold D; change 0 with (inject_Z 0); rewrite <- Zlt_Qlt; lia).
  set (P := pow2 (ln - ld - 1)) in *. set (U := pow2 (ld + 1)) in *.
  set (L := pow2 ln) in *. set (N := inject_Z (Qnum q)) in *.
  clearbody D P U L N.
  apply (Qmult_le_r _ _ D HD). nra.
Qed.

Lemma binade_upper (q : Q) : 0 < q -> q < pow2 (binade q + 1).
Proof.
  intros Hq. unfold binade.
  destruct (Qle_bool _ q) eqn:E.
  - assert (Hn : (0 < Qnum q)%Z).
    { destruct q as [n d]. unfold Qlt in Hq. simpl in *. lia. }
    destruct (log2_bounds (Qnum q) Hn) as [_ Hn2].
    destruct (log2_bounds (Zpos (Qden q)) eq_refl) as [Hd1 _].
    pose proof (Q_num_den q) as Hq'.
    set (ln := Z.log2 (Qnum q)) in *. set (ld := Z.log2 (Zpos (Qden q))) in *.
    assert (Hsplit : pow2 (ln + 1) == pow2 (ln - ld + 1) * pow2 ld).
    { rewrite <- pow2_add. now replace (ln - ld + 1 + ld)%Z with (ln + 1)%Z by lia. }
    pose proof (pow2_pos (ln - ld + 1)) as Hp.
    set (D := inject_Z (Zpos (Qden q))) in *.
    assert (HD : 0 < D) by (unfold D; change 0 with (inject_Z 0); rewrite <- Zlt_Qlt; lia).
    set (P := pow2 (ln - ld + 1)) in *. set (U := pow2 ld) in *.
    set (L := pow2 (ln + 1)) in *. set (N := inject_Z (Qnum q)) in *.
    clearbody D P U L N.
    apply (Qmult_lt_r _ _ D HD). nra.
  - replace (Z.log2 (Qnum q) - Z.log2 (Zpos (Qden q)) - 1 + 1)%Z
      with (Z.log2 (Qnum q) - Z.log2 (Zpos (Qden q)))%Z by lia.
    apply Qnot_le_lt. intros H. apply Qle_bool_iff in H. congruence.
Qed.

Lemma RN_pos_eq (q : Q) : 0 < q -> RN q == RN_pos q.
Proof.
  intros Hq. unfold RN. rewrite Qred_correct.
  assert (E : (q ?= 0) = Gt) by now apply (proj1 (Qgt_alt _ _)).
  now rewrite E.
Qed.

Lemma RN_zero (q : Q) : q == 0 -> RN q == 0.
Proof.
  intros Hq. unfold RN. rewrite Qred_correct.
  assert (E : (q ?= 0) = Eq) by now apply (proj1 (Qeq_alt _ _)).
  now rewrite E.
Qed.

(** A multiple of the unit in the last place below [q] stays below the
    rounded value, and one above stays above. *)
Lemma RN_pos_multiple_lower (q : Q) (k : Z) :
  0 < q -> inject_Z k * pow2 (ulp_exp q) <= q ->
  inject_Z k * pow2 (ulp_exp q) <= RN_pos q.
Proof.
  intros Hq Hk. unfold RN_pos. pose proof (pow2_pos (ulp_exp q)) as Hp.
  apply Qmult_le_compat_r; [| now apply Qlt_le_weak].
  rewrite <- Zle_Qle.
  apply (nearest_even_bounds _ k (Qceiling (q / pow2 (ulp_exp q)))).
  - now apply Qle_shift_div_l.
  - apply Qle_ceiling.
Qed.

Lemma RN_pos_multiple_upper (q : Q) (k : Z) :
  0 < q -> q <= inject_Z k * pow2 (ulp_exp q) ->
  RN_pos q <= inject_Z k * pow2 (ulp_exp q).
Proof.
  intros Hq Hk. unfold RN_pos. pose proof (pow2_pos (ulp_exp q)) as Hp.
  apply Qmult_le_compat_r; [| now apply Qlt_le_weak].
  rewrite <- Zle_Qle.
  apply (nearest_even_bounds _ (Qfloor (q / pow2 (ulp_exp q))) k).
  - apply Qfloor_le.
  - now apply Qle_shift_div_r.
Qed.

Lemma multiple_of_ulp (m e x : Z) :
  (x <= e)%Z -> inject_Z m * pow2 e == inject_Z (m * 2 ^ (e - x)) * pow2 x.
Proof.
  intros H. rewrite inject_Z_mult, <- pow2_inject by lia.
  rewrite <- Qmult_assoc, <- pow2_add.
  now replace (e - x + x)%Z with e by lia.
Qed.

Lemma binade_is_multiple (q : Q) :
  pow2 (binade q) == inject_Z (2 ^ (binade q - ulp_exp q)) * pow2 (ulp_exp q) \/
  (binade q < ulp_exp q)%Z.
Proof.
  destruct (Z.le_gt_cases (ulp_exp q) (binade q)) as [H | H]; [left | right; lia].
  rewrite <- pow2_inject by lia. rewrite <- pow2_add.
  now replace (binade q - ulp_exp q + ulp_exp q)%Z with (binade q) by lia.
Qed.

(** A value with a 53-bit significand and an exponent below the unit in
    the last place of [q] lies below the binade of [q]. *)
Lemma small_exponent_below_binade (q : Q) (m e : Z) :
  (0 <= m < 2 ^ 53)%Z -> (-1074 <= e)%Z -> (e < ulp_exp q)%Z ->
  inject_Z m * pow2 e < pow2 (binade q) /\ ulp_exp q = (binade q - 52)%Z.
Proof.
  intros Hm He Hx. unfold ulp_exp in *.
  assert (Hxe : Z.max (binade q - 52) (-1074) = (binade q - 52)%Z) by lia.
  split; [| exact Hxe].
  apply Qlt_le_trans with (pow2 (53 + e)).
  - rewrite pow2_add, (pow2_inject 53) by lia.
    apply Qmult_lt_compat_r; [apply pow2_pos |]. rewrite <- Zlt_Qlt. lia.
  - apply pow2_le. lia.
Qed.

Lemma RN_pos_lower (q a : Q) (m e : Z) :
  0 < q -> a == inject_Z m * pow2 e -> (0 <= m < 2 ^ 53)%Z -> (-1074 <= e)%Z ->
  a <= q -> a <= RN_pos q.
Proof.
  intros Hq Ha Hm He Haq.
  destruct (Z.le_gt_cases (ulp_exp q) e) as [Hx | Hx].
  - rewrite Ha in *. rewrite (multiple_of_ulp m e (ulp_exp q) Hx) in *.
    now apply RN_pos_multiple_lower.
  - destruct (small_exponent_below_binade q m e Hm He Hx) as [Hlt Hu].
    rewrite Ha. apply Qlt_le_weak. eapply Qlt_le_trans; [exact Hlt |].
    destruct (binade_is_multiple q) as [Hmul | Hbad]; [| lia].
    rewrite Hmul. apply RN_pos_multiple_lower; [exact Hq |].
    rewrite <- Hmul. now apply binade_lower.
Qed.

Lemma RN_pos_upper (q b : Q) (m e : Z) :
  0 < q -> b == inject_Z m * pow2 e -> (0 <= m < 2 ^ 53)%Z -> (-1074 <= e)%Z ->
  q <= b -> RN_pos q <= b.
Proof.
  intros Hq Hb Hm He Hqb.
  destruct (Z.le_gt_cases (ulp_exp q) e) as [Hx | Hx].
  - rewrite Hb in *. rewrite (multiple_of_ulp m e (ulp_exp q) Hx) in *.
    now apply RN_pos_multiple_upper.
  - destruct (small_exponent_below_binade q m e Hm He Hx) as [Hlt _].
    exfalso. pose proof (binade_lower q Hq) as Hlow. rewrite <- Hb in Hlt.
    apply (Qlt_irrefl q). eapply Qle_lt_trans; [exact Hqb |].
    eapply Qlt_le_trans; [exact Hlt | exact Hlow].
Qed.

Lemma representable_nonneg (a : Q) :
  representable a -> 0 <= a ->
  exists m e, a == inject_Z m * pow2 e /\ (0 <= m < 2 ^ 53)%Z /\ (-1074 <= e <= 971)%Z.
Proof.
  intros (m & e & Ha & Hm & He) H0.
  assert (Hm0 : (0 <= m)%Z).
  { destruct (Z.le_gt_cases 0 m) as [H | H]; [exact H | exfalso].
    pose proof (pow2_pos e) as Hp.
    assert (Hneg : inject_Z m * pow2 e < 0).
    { assert (Hm' : inject_Z m < 0) by (change 0 with (inject_Z 0); rewrite <- Zlt_Qlt; lia).
      set (M := inject_Z m) in *. set (P := pow2 e) in *. clearbody M P. nra. }
    rewrite <- Ha in Hneg. lra. }
  exists m, e. repeat split; try lia. exact Ha.
Qed.

(** Rounding never crosses a double. *)
Lemma RN_lower (q a : Q) :
  representable a -> 0 <= a -> a <= q -> a <= RN q.
Proof.
  intros Hr Ha Haq.
  destruct (representable_nonneg a Hr Ha) as (m & e & Hme & Hm & He).
  destruct (Qlt_le_dec 0 q) as [Hq | Hq].
  - rewrite (RN_pos_eq q Hq). apply (RN_pos_lower q a m e); auto. lia.
  - assert (Hq0 : q == 0) by lra. rewrite (RN_zero q Hq0). lra.
Qed.

Lemma RN_upper (q b : Q) :
  representable b -> 0 <= q -> q <= b -> RN q <= b.
Proof.
  intros Hr Hq Hqb.
  assert (Hb : 0 <= b) by lra.
  destruct (representable_nonneg b Hr Hb) as (m & e & Hme & Hm & He).
  destruct (Qlt_le_dec 0 q) as [Hq' | Hq'].
  - rewrite (RN_pos_eq q Hq'). apply (RN_pos_upper q b m e); auto. lia.
  - assert (Hq0 : q == 0) by lra. rewrite (RN_zero q Hq0). lra.
Qed.

(** A double is its own rounding. *)
Lemma RN_fix (a : Q) : representable a -> 0 <= a -> RN a == a.
Proof.
  intros Hr Ha. apply Qle_antisym.
  - apply RN_upper; auto. apply Qle_refl.
  - apply RN_lower; auto. apply Qle_refl.
Qed.

Lemma RN_nonneg (q : Q) : 0 <= q -> 0 <= RN q.
Proof.
  intros Hq. apply RN_lower; [| apply Qle_refl | exact Hq].
  exists 0%Z, 0%Z. split; [reflexivity | split; lia].
Qed.

(** The rounding error is at most half a unit in the last place. *)
Lemma RN_error (q : Q) : 0 < q -> Qabs (RN q - q) <= pow2 (ulp_exp q - 1).
Proof.
  intros Hq. rewrite (RN_pos_eq q Hq). unfold RN_pos.
  pose proof (pow2_pos (ulp_exp q)) as Hp.
  pose proof (nearest_even_error (q / pow2 (ulp_exp q))) as He.
  assert (Hhalf : pow2 (ulp_exp q - 1) == (1 # 2) * pow2 (ulp_exp q)).
  { replace (ulp_exp q - 1)%Z with (-1 + ulp_exp q)%Z by lia. now rewrite pow2_add. }
  rewrite Hhalf.
  assert (Hq' : q == (q / pow2 (ulp_exp q)) * pow2 (ulp_exp q)).
  { field. intros H. rewrite H in Hp. now apply Qlt_irrefl in Hp. }
  set (y := q / pow2 (ulp_exp q)) in *. set (P := pow2 (ulp_exp q)) in *.
  set (M := inject_Z (nearest_even y)) in *.
  apply Qabs_Qle_condition in He as [He1 He2].
  apply Qabs_Qle_condition.
  clearbody y P M. rewrite Hq'. split; nra.
Qed.

Lemma RN_representable (q : Q) :
  0 <= q -> q < pow2 1023 -> representable (RN q).
Proof.
  intros Hq Hmax.
  destruct (Qlt_le_dec 0 q) as [Hpos | Hz].
  2: { exists 0%Z, 0%Z. split; [| split; lia].
       rewrite (RN_zero q) by lra. reflexivity. }
  pose proof (binade_lower q Hpos) as Hlo. pose proof (binade_upper q Hpos) as Hhi.
  assert (He : (binade q < 1023)%Z).
  { apply pow2_lt_inv. eapply Qle_lt_trans; [exact Hlo | exact Hmax]. }
  pose proof (pow2_pos (ulp_exp q)) as Hp.
  set (y := q / pow2 (ulp_exp q)).
  assert (Hx : (binade q - 52 <= ulp_exp q)%Z /\ (-1074 <= ulp_exp q <= 970)%Z)
    by (unfold ulp_exp; lia).
  assert (Hy0 : inject_Z 0 <= y).
  { unfold y. apply Qle_shift_div_l; [exact Hp |]. change (inject_Z 0) with 0. lra. }
  assert (Hy1 : y <= inject_Z (2 ^ 53)).
  { unfold y. apply Qle_shift_div_r; [exact Hp |].
    rewrite <- pow2_inject, <- pow2_add by lia.
    apply Qlt_le_weak. eapply Qlt_le_trans; [exact Hhi |]. apply pow2_le. lia. }
  pose proof (nearest_even_bounds y 0 (2 ^ 53) Hy0 Hy1) as [Hm0 Hm1].
  destruct (Z.eq_dec (nearest_even y) (2 ^ 53)%Z) as [Heq | Hne].
  - exists (2 ^ 52)%Z, (ulp_exp q + 1)%Z. split; [| split; lia].
    rewrite (RN_pos_eq q Hpos). unfold RN_pos. fold y. rewrite Heq.
    rewrite pow2_add. change (pow2 1) with 2.
    assert (H53 : inject_Z (2 ^ 53) == inject_Z (2 ^ 52) * 2) by reflexivity.
    rewrite H53. ring.
  - exists (nearest_even y), (ulp_exp q). split; [| split; lia].
    rewrite (RN_pos_eq q Hpos). reflexivity.
Qed.

Lemma representable_Z (n : Z) : (Z.abs n < 2 ^ 53)%Z -> representable (inject_Z n).
Proof.
  intros H. exists n, 0%Z. split; [| split; [exact H | lia]].
  change (pow2 0) with 1. ring.
Qed.

Lemma representable_half : representable (1 # 2).
Proof. exists 1%Z, (-1)%Z. split; [reflexivity | split; [reflexivity | lia]]. Qed.

Lemma RN_between (q a b : Q) :
  representable a -> representable b -> 0 <= a -> a <= q -> q <= b ->
  a <= RN q <= b.
Proof.
  intros Ha Hb H0 Hlo Hhi. split.
  - now apply RN_lower.
  - apply RN_upper; [exact Hb | lra | exact Hhi].
Qed.

(** Rounding twice is rounding once. *)
Lemma RN_idempotent (q : Q) : 0 <= q -> q < pow2 1023 -> RN (RN q) == RN q.
Proof.
  intros H0 Hmax. apply RN_fix; [now apply RN_representable | now apply RN_nonneg].
Qed.

(** Below one, a rounding errs by at most [2^-54]. *)
Lemma RN_error_below_one (q : Q) : 0 <= q -> q <= 1 -> Qabs (RN q - q) <= 1 # 18014398509481984.
Proof.
  intros H0 H1.
  destruct (Qlt_le_dec 0 q) as [Hpos | Hz].
  2: { assert (Hq : q == 0) by lra. rewrite (RN_zero q Hq), Hq. discriminate. }
  destruct (Qlt_le_dec q 1) as [Hlt | Hge].
  - eapply Qle_trans; [now apply RN_error |].
    assert (Hb : (binade q < 0)%Z).
    { apply pow2_lt_inv. eapply Qle_lt_trans; [now apply binade_lower | exact Hlt]. }
    change (1 # 18014398509481984) with (pow2 (-54)). apply pow2_le. unfold ulp_exp. lia.
  - assert (Hq : q == 1) by lra.
    assert (Hr : RN q == q).
    { apply RN_fix; [| lra]. exists 1%Z, 0%Z. split; [| split; [reflexivity | lia]].
      rewrite Hq. reflexivity. }
    apply Qabs_Qle_condition. set (r := RN q) in *. clearbody r. split; lra.
Qed.
End Float64.

Section Rounding.
Import F64.
Open Scope Q_scope.

Lemma scale_pos (n : nat) : 0 < inject_Z (10 ^ Z.of_nat n).
Proof.
  change 0 with (inject_Z 0). rewrite <- Zlt_Qlt. apply Z.pow_pos_nonneg; lia.
Qed.

(** [round(x, n)] is the double nearest to [m / 10^n], where [m] is the
    integer nearest to [x * 10^n], ties going to the even one. *)
Lemma round_is_nearest_decimal (x : Q) (n : nat) :
  exists m : Z,
    PyNum.round x n = RN (inject_Z m / inject_Z (10 ^ Z.of_nat n)) /\
    Qabs (inject_Z m - x * inject_Z (10 ^ Z.of_nat n)) <= 1 # 2 /\
    (Qabs (inject_Z m - x * inject_Z (10 ^ Z.of_nat n)) == 1 # 2 -> Z.even m = true).
Proof.
  exists (nearest_even (x * inject_Z (10 ^ Z.of_nat n))).
  split; [reflexivity |]. split; [apply nearest_even_error |].
  apply nearest_even_tie.
Qed.

Lemma round_lower (q : Q) (n : nat) (a : Z) :
  (0 <= a < 2 ^ 53)%Z -> inject_Z a <= q -> inject_Z a <= PyNum.round q n.
Proof.
  intros Ha Hq. unfold PyNum.round. pose proof (scale_pos n) as Hs.
  set (s := (10 ^ Z.of_nat n)%Z) in *.
  assert (Ha0 : 0 <= inject_Z a) by (change 0 with (inject_Z 0); rewrite <- Zle_Qle; lia).
  apply RN_lower; [apply representable_Z; lia | exact Ha0 |].
  apply Qle_shift_div_l; [exact Hs |].
  rewrite <- inject_Z_mult, <- Zle_Qle.
  apply (nearest_even_bounds _ (a * s) (Qceiling (q * inject_Z s))).
  - rewrite inject_Z_mult. apply Qmult_le_compat_r; [exact Hq | now apply Qlt_le_weak].
  - apply Qle_ceiling.
Qed.

Lemma round_upper (q : Q) (n : nat) (b : Z) :
  (0 <= b < 2 ^ 53)%Z -> 0 <= q -> q <= inject_Z b -> PyNum.round q n <= inject_Z b.
Proof.
  intros Hb H0 Hq. unfold PyNum.round. pose proof (scale_pos n) as Hs.
  set (s := (10 ^ Z.of_nat n)%Z) in *.
  destruct (nearest_even_bounds (q * inject_Z s) 0 (b * s)) as [Hlo Hhi].
  - change (inject_Z 0) with 0. apply Qmult_le_0_compat; [exact H0 | now apply Qlt_le_weak].
  - rewrite inject_Z_mult. apply Qmult_le_compat_r; [exact Hq | now apply Qlt_le_weak].
  - rewrite Zle_Qle in Hlo, Hhi. rewrite inject_Z_mult in Hhi.
    apply RN_upper; [apply representable_Z; lia | |].
    + apply Qle_shift_div_l; [exact Hs |]. change (inject_Z 0) with 0 in Hlo. lra.
    + apply Qle_shift_div_r; assumption.
Qed.

Lemma round_bounds (q : Q) (n : nat) (a b : Z) :
  (0 <= a)%Z -> (b < 2 ^ 53)%Z ->
  inject_Z a <= q -> q <= inject_Z b ->
  inject_Z a <= PyNum.round q n <= inject_Z b.
Proof.
  intros Ha Hb Hlo Hhi.
  assert (Hab : (a <= b)%Z) by (rewrite Zle_Qle; lra).
  assert (H0 : 0 <= q).
  { apply Qle_trans with (inject_Z a); [| exact Hlo].
    change 0 with (inject_Z 0). rewrite <- Zle_Qle. exact Ha. }
  split; [apply round_lower | apply round_upper]; auto; lia.
Qed.
End Rounding.

Section Policy.
Import F64.
Open Scope Q_scope.

Lemma below_max (q : Q) : q <= 1024 -> q < pow2 1023.
Proof.
  intros H. pose proof (pow2_le 11 1023 ltac:(lia)) as Hp.
  change (pow2 11) with 2048 in Hp. set (P := pow2 1023) in *. clearbody P. lra.
Qed.

Lemma label_of_normal (p : Q) : 1 # 2 < p -> label_of p = "Normal".
Proof.
  intros H. unfold label_of.
  destruct (Qle_bool p (1 # 2)) eqn:E; [| reflexivity].
  apply Qle_bool_iff in E. lra.
Qed.

Lemma label_of_fractured (p : Q) : p <= 1 # 2 -> label_of p = "Fractured".
Proof.
  intros H. unfold label_of.
  apply Qle_bool_iff in H. now rewrite H.
Qed.

Lemma label_of_cases (p : Q) :
  (1 # 2 < p /\ label_of p = "Normal") \/ (p <= 1 # 2 /\ label_of p = "Fractured").
Proof.
  destruct (Qlt_le_dec (1 # 2) p) as [H | H].
  - left. split; [exact H | now apply label_of_normal].
  - right. split; [exact H | now apply label_of_fractured].
Qed.

Lemma confidence_of_normal_eq (p : Q) : 1 # 2 < p -> confidence_of p = RN p.
Proof. intros H. unfold confidence_of. now rewrite (label_of_normal p H). Qed.

Lemma confidence_of_fractured_eq (p : Q) :
  p <= 1 # 2 -> confidence_of p = RN (sub 1 p).
Proof. intros H. unfold confidence_of. now rewrite (label_of_fractured p H). Qed.

(** [float(prob)] is [prob] itself when [prob] is a double. *)
Lemma confidence_of_normal (p : Q) :
  representable p -> 1 # 2 < p -> confidence_of p == p.
Proof.
  intros Hr H. rewrite (confidence_of_normal_eq p H). apply RN_fix; [exact Hr | lra].
Qed.

Lemma confidence_of_fractured (p : Q) :
  0 <= p -> p <= 1 # 2 -> confidence_of p == sub 1 p.
Proof.
  intros H0 H. rewrite (confidence_of_fractured_eq p H). unfold sub.
  apply RN_idempotent; [lra | apply below_max; lra].
Qed.

Lemma confidence_of_range (p : Q) : 0 <= p <= 1 -> 1 # 2 <= confidence_of p <= 1.
Proof.
  intros [H0 H1].
  assert (R1 : representable 1) by (apply (representable_Z 1); reflexivity).
  destruct (Qlt_le_dec (1 # 2) p) as [H | H].
  - rewrite (confidence_of_normal_eq p H).
    apply RN_between; auto using representable_half; lra.
  - rewrite (confidence_of_fractured_eq p H). unfold sub.
    assert (Hs : 1 # 2 <= RN (1 - p) <= 1)
      by (apply RN_between; auto using representable_half; lra).
    apply RN_between; auto using representable_half; lra.
Qed.

Lemma confidence_pct_bounds (c : Q) (a b : Z) :
  (0 <= a)%Z -> (b < 2 ^ 53)%Z ->
  inject_Z a <= c * 100 -> c * 100 <= inject_Z b ->
  inject_Z a <= confidence_pct_of c <= inject_Z b.
Proof.
  intros Ha Hb Hlo Hhi. unfold confidence_pct_of, mul.
  assert (Hab : (a <= b)%Z) by (rewrite Zle_Qle; lra).
  assert (Ha0 : 0 <= inject_Z a) by (change 0 with (inject_Z 0); rewrite <- Zle_Qle; lia).
  destruct (RN_between (c * 100) (inject_Z a) (inject_Z b)) as [H1 H2];
    try (apply representable_Z; lia); auto.
  now apply round_bounds.
Qed.

(** C2: for a double [p] in [0,1] the label is "Normal" exactly when
    [p > 0.5] and "Fractured" otherwise; the confidence is [p] for Normal
    and the float difference [1.0 - p] for Fractured, which is within
    [2^-54] of [1 - p] and equal to it when [1 - p] is a double; the
    confidence lies in [0.5, 1]; the percentage is the double nearest to
    [m / 100], where [m] is the integer nearest to 100 times the float
    product [confidence * 100.0], the even one at a tie; and the percentage
    lies in [0, 100] (in fact in [50, 100]). *)
Theorem label_policy (p : Q) :
  F64.representable p ->
  0 <= p <= 1 ->
  (label_of p = "Normal" <-> 1 # 2 < p) /\
  (label_of p = "Fractured" <-> ~ 1 # 2 < p) /\
  (label_of p = "Normal" -> confidence_of p == p) /\
  (label_of p = "Fractured" ->
     confidence_of p == F64.sub 1 p /\
     Qabs (confidence_of p - (1 - p)) <= 1 # 18014398509481984 /\
     (F64.representable (1 - p) -> confidence_of p == 1 - p)) /\
  1 # 2 <= confidence_of p <= 1 /\
  (exists m : Z,
     confidence_pct_of (confidence_of p) = F64.RN (inject_Z m / 100) /\
     Qabs (inject_Z m - F64.mul (confidence_of p) 100 * 100) <= 1 # 2 /\
     (Qabs (inject_Z m - F64.mul (confidence_of p) 100 * 100) == 1 # 2 ->
      Z.even m = true) /\
     (5000 <= m <= 10000)%Z) /\
  0 <= confidence_pct_of (confidence_of p) <= 100 /\
  50 <= confidence_pct_of (confidence_of p).
Proof.
  intros Hr [Hp0 Hp1].
  pose proof (confidence_of_range p (conj Hp0 Hp1)) as [Hc0 Hc1].
  assert (Hpct : inject_Z 50 <= confidence_pct_of (confidence_of p) <= inject_Z 100).
  { apply confidence_pct_bounds; try lia; unfold inject_Z; lra. }
  assert (Hround : exists m : Z,
     confidence_pct_of (confidence_of p) = RN (inject_Z m / 100) /\
     Qabs (inject_Z m - mul (confidence_of p) 100 * 100) <= 1 # 2 /\
     (Qabs (inject_Z m - mul (confidence_of p) 100 * 100) == 1 # 2 ->
      Z.even m = true) /\
     (5000 <= m <= 10000)%Z).
  { unfold confidence_pct_of, PyNum.round.
    change (inject_Z (10 ^ Z.of_nat 2)) with 100.
    exists (nearest_even (mul (confidence_of p) 100 * 100)).
    split; [reflexivity |]. split; [apply nearest_even_error |].
    split; [apply nearest_even_tie |].
    assert (R50 : representable 50) by (apply (representable_Z 50); reflexivity).
    assert (R100 : representable 100) by (apply (representable_Z 100); reflexivity).
    destruct (RN_between (confidence_of p * 100) 50 100) as [H1 H2]; auto; try lra.
    apply nearest_even_bounds; unfold mul, inject_Z; lra. }
  unfold inject_Z in Hpct.
  destruct (label_of_cases p) as [[Hlt Hl] | [Hle Hl]].
  - rewrite Hl.
    split; [tauto |]. split; [split; [discriminate | tauto] |].
    split; [intros _; now apply confidence_of_normal |]. split; [discriminate |].
    split; [split; assumption |]. split; [exact Hround |]. split; [split |]; lra.
  - rewrite Hl.
    assert (Hnot : ~ 1 # 2 < p) by lra.
    split; [split; [discriminate | tauto] |]. split; [tauto |].
    split; [discriminate |].
    split.
    { intros _. pose proof (confidence_of_fractured p Hp0 Hle) as Hc.
      split; [exact Hc |]. split.
      - rewrite Hc. unfold sub. apply RN_error_below_one; lra.
      - intros Hrep. rewrite Hc. unfold sub. apply RN_fix; [exact Hrep | lra]. }
    split; [split; assumption |]. split; [exact Hround |]. split; [split |]; lra.
Qed.

(** The policy at [p = 0.25]: "Fractured" with confidence [0.75]. *)
Lemma label_policy_witness :
  label_of (1 # 4) = "Fractured" /\ confidence_of (1 # 4) == 3 # 4.
Proof.
  assert (Hr : F64.representable (1 # 4)).
  { exists 1%Z, (-2)%Z. split; [reflexivity | split; [reflexivity | lia]]. }
  assert (Hr' : F64.representable (1 - (1 # 4))).
  { exists 3%Z, (-2)%Z. split; [reflexivity | split; [reflexivity | lia]]. }
  destruct (label_policy (1 # 4) Hr) as (_ & Hf & _ & Hc & _).
  - lra.
  - assert (Hl : label_of (1 # 4) = "Fractured") by (apply Hf; lra).
    split; [exact Hl |].
    destruct (Hc Hl) as (_ & _ & He). rewrite (He Hr'). reflexivity.
Defined.

(** Two runs of the policy in which the float result differs from the
    exact one: [p = 0.50005] is shown as [50.01], and [p = 0.1] has
    confidence [0.9], the double nearest to [1 - 0.1]. *)
Example label_policy_rounds_like_floats :
  label_of (lit (50005 # 100000)) = "Normal" /\
  confidence_pct_of (confidence_of (lit (50005 # 100000))) = lit (5001 # 100) /\
  ~ lit (50005 # 100000) * 100 == 50005 # 1000 /\
  label_of (lit (1 # 10)) = "Fractured" /\
  confidence_of (lit (1 # 10)) = lit (9 # 10) /\
  ~ confidence_of (lit (1 # 10)) == 1 - lit (1 # 10).
Proof.
  vm_compute. repeat split; try reflexivity; discriminate.
Qed.
End Policy.

(** ** Shape of the runs of [predict] *)

Section PredictShape.
Context (cfg : Config) (env : Env) (req : Request).

Lemma infer_and_label_reached patient saved path (f : gmap string Os.Blob) c f' :
  infer_and_label cfg env req patient saved path f = Reached c f' ->
  f' = f /\
  exists input p, predict_from_model cfg env input = Ok p /\ c = scan_of env patient saved p.
Proof.
  unfold infer_and_label.
  destruct (TF_AVAILABLE cfg && bool_decide (is_Some (model cfg))).
  - destruct (preprocess_error env); [discriminate |].
    destruct (predict_from_model cfg env (f !! path)) as [p |] eqn:E; [| discriminate].
    intros [= <- <-]. split; [reflexivity |]. now exists (f !! path), p.
  - destruct (predict_from_model cfg env None) as [p |] eqn:E; [| discriminate].
    intros [= <- <-]. split; [reflexivity |]. now exists None, p.
Qed.

Lemma infer_and_label_returned patient saved path (f : gmap string Os.Blob) r f' :
  infer_and_label cfg env req patient saved path f = Returned r f' ->
  f' = f /\ exists e, r = error_response req "Prediction error" (Some e) 500.
Proof.
  unfold infer_and_label.
  destruct (TF_AVAILABLE cfg && bool_decide (is_Some (model cfg))).
  - destruct (preprocess_error env) as [e |].
    + intros [= <- <-]. split; [reflexivity | now exists e].
    + destruct (predict_from_model cfg env (f !! path)) as [p | e]; [discriminate |].
      intros [= <- <-]. split; [reflexivity | now exists e].
  - destruct (predict_from_model cfg env None); discriminate.
Qed.

Lemma predict_steps_reached (f : gmap string Os.Blob) c f' :
  predict_steps cfg env req f = Reached c f' ->
  exists input p patient saved,
    predict_from_model cfg env input = Ok p /\ c = scan_of env patient saved p.
Proof.
  unfold predict_steps.
  destruct (files req !! "file") as [file |]; [| discriminate].
  destruct (String.eqb (filename file) ""); [discriminate |].
  destruct (String.eqb (PyStr.strip _) ""); [discriminate |].
  destruct (negb (allowed_file _)); [discriminate |].
  destruct (save_error env); [discriminate |].
  destruct (String.eqb (file_ext _) "webp").
  - destruct (convert_error env); [discriminate |].
    intros H. apply infer_and_label_reached in H as (_ & i & p & Hp & ->).
    now eexists i, p, _, _.
  - intros H. apply infer_and_label_reached in H as (_ & i & p & Hp & ->).
    now eexists i, p, _, _.
Qed.

Lemma predict_steps_returned (f : gmap string Os.Blob) r f' :
  predict_steps cfg env req f = Returned r f' ->
  exists msg details code, r = error_response req msg details code.
Proof.
  unfold predict_steps.
  destruct (files req !! "file") as [file |]; [| intros [= <- _]; eauto].
  destruct (String.eqb (filename file) ""); [intros [= <- _]; eauto |].
  destruct (String.eqb (PyStr.strip _) ""); [intros [= <- _]; eauto |].
  destruct (negb (allowed_file _)); [intros [= <- _]; eauto |].
  destruct (save_error env); [discriminate |].
  destruct (String.eqb (file_ext _) "webp").
  - destruct (convert_error env); [intros [= <- _]; eauto |].
    intros H. apply infer_and_label_returned in H as (_ & e & ->). eauto.
  - intros H. apply infer_and_label_returned in H as (_ & e & ->). eauto.
Qed.

Lemma error_response_has_no_result msg details code kj kh :
  kj <> "error" -> kj <> "details" -> kh <> "error" ->
  response_field kj kh (error_response req msg details code) = None.
Proof.
  intros H1 H2 H3. unfold error_response, response_field.
  apply String.eqb_neq in H1, H2, H3. rewrite String.eqb_sym in H1, H2, H3.
  destruct (request_wants_json req); cbn [body get_field].
  - rewrite H1. destruct details; cbn [get_field]; [now rewrite H2 | reflexivity].
  - now rewrite H3.
Qed.

Lemma success_response_label c :
  response_label (success_response env req c) = Some (JStr (s_label c)).
Proof. unfold success_response, response_label, response_field.
  destruct (request_wants_json req); reflexivity. Qed.

Lemma success_response_pct c :
  response_confidence_pct (success_response env req c) = Some (JNum (s_confidence_pct c)).
Proof. unfold success_response, response_confidence_pct, response_field.
  destruct (request_wants_json req); reflexivity. Qed.

Lemma success_response_status c : status (success_response env req c) = 200.
Proof. unfold success_response. destruct (request_wants_json req); reflexivity. Qed.

Lemma success_response_no_error c : response_error (success_response env req c) = None.
Proof. unfold success_response, response_error, response_field.
  destruct (request_wants_json req); reflexivity. Qed.

End PredictShape.

Section DemoValue.
Import F64.
Open Scope Q_scope.

(** [random.uniform(0.75, 0.95)]: the float sum is a double and never
    leaves the interval between the two literals. *)
Lemma demo_uniform_bounds (u : Q) :
  0 <= u -> u < 1 ->
  75 # 100 <= PyNum.uniform (lit (75 # 100)) (lit (95 # 100)) u <= lit (95 # 100) /\
  representable (PyNum.uniform (lit (75 # 100)) (lit (95 # 100)) u).
Proof.
  intros H0 H1. unfold PyNum.uniform, add, mul.
  set (a := lit (75 # 100)). set (b := lit (95 # 100)). set (w := sub b a).
  assert (Ha : a == 75 # 100) by (vm_compute; reflexivity).
  assert (Hw0 : 0 <= w) by (vm_compute; discriminate).
  assert (Hsum : a + w == b) by (vm_compute; reflexivity).
  assert (Ra : representable a).
  { apply RN_representable; [lra | apply below_max; lra]. }
  assert (Rb : representable b).
  { apply RN_representable; [lra | apply below_max; lra]. }
  assert (Rw : representable w).
  { apply RN_representable; [vm_compute; discriminate | apply below_max; vm_compute; discriminate]. }
  assert (R0 : representable 0) by (apply (representable_Z 0); reflexivity).
  destruct (RN_between (w * u) 0 w) as [Hm0 Hm1]; auto; try lra; try nra.
  assert (Hb : b <= 1) by (vm_compute; discriminate).
  clearbody a b w. split.
  - destruct (RN_between (a + RN (w * u)) a b) as [Hs0 Hs1]; auto; lra.
  - apply RN_representable; [lra | apply below_max; lra].
Qed.

Lemma demo_upper_literal : lit (95 # 100) <= 95 # 100.
Proof. vm_compute. discriminate. Qed.

(** For [u = 213/512] the float result is [0.8332031249999999], one unit
    in the last place below the exact [0.75 + 0.2 u]. *)
Example demo_uniform_is_float_arithmetic :
  PyNum.uniform (lit (75 # 100)) (lit (95 # 100)) (213 # 512) =
    7504826566547865 # 9007199254740992 /\
  PyNum.uniform (lit (75 # 100)) (lit (95 # 100)) (213 # 512) <
    (75 # 100) + (20 # 100) * (213 # 512).
Proof. vm_compute. split; reflexivity. Qed.
End DemoValue.

Section Demo.
Import F64.
Open Scope Q_scope.
Context (cfg : Config) (env : Env).
Hypothesis no_model : model cfg = None.
Hypothesis sample_range : 0 <= random_sample env < 1.

Lemma demo_probability input :
  exists p, predict_from_model cfg env input = Ok p /\
            75 # 100 <= p <= lit (95 # 100).
Proof.
  unfold predict_from_model. rewrite no_model. eexists. split; [reflexivity |].
  destruct sample_range as [Hu0 Hu1].
  exact (proj1 (demo_uniform_bounds (random_sample env) Hu0 Hu1)).
Qed.

Lemma demo_scan req (f : gmap string Os.Blob) c f' :
  predict_steps cfg env req f = Reached c f' ->
  s_label c = "Normal" /\ 75 <= s_confidence_pct c <= 95.
Proof.
  intros H. apply predict_steps_reached in H as (i & p & pt & sv & Hp & ->).
  destruct (demo_probability i) as (p' & Hp' & Hlo & Hhi).
  rewrite Hp in Hp'. injection Hp' as <-.
  pose proof demo_upper_literal as Hlit.
  assert (Hhalf : 1 # 2 < p) by lra.
  simpl. rewrite (confidence_of_normal_eq p Hhalf). split.
  - now apply label_of_normal.
  - assert (R34 : representable (75 # 100)).
    { exists 3%Z, (-2)%Z. split; [reflexivity | split; [reflexivity | lia]]. }
    assert (Rb : representable (lit (95 # 100))).
    { apply RN_representable; [lra | apply below_max; lra]. }
    destruct (RN_between p (75 # 100) (lit (95 # 100))) as [H1 H2]; auto; try lra.
    apply (confidence_pct_bounds (RN p) 75 95); try lia; unfold inject_Z; lra.
Qed.
End Demo.

Section InferenceOutput.
Import F64.
Open Scope Q_scope.

(** What inference returns is a double, and lies in [0, 1] when the
    output of the model does. *)
Lemma inference_output_is_double (cfg : Config) (env : Env) input p :
  predict_from_model cfg env input = Ok p ->
  (forall m v, model cfg = Some m -> m input = Ok v -> (0 <= v <= 1)%Q) ->
  (0 <= random_sample env < 1)%Q ->
  F64.representable p /\ (0 <= p <= 1)%Q.
Proof.
  intros Hp Hout [Hu0 Hu1].
  destruct (demo_uniform_bounds (random_sample env) Hu0 Hu1) as [[Hlo Hhi] Hr].
  pose proof demo_upper_literal as Hlit.
  unfold predict_from_model in Hp.
  set (x := PyNum.uniform _ _ _) in *. set (b := lit (95 # 100)) in *.
  clearbody x b.
  destruct (model cfg) as [m |] eqn:Hm.
  - destruct (m input) as [v |] eqn:Hv; [| discriminate]. injection Hp as <-.
    destruct (Hout m v eq_refl Hv) as [Hv0 Hv1]. unfold of_float. split.
    + apply RN_representable; [exact Hv0 | apply below_max; lra].
    + apply RN_between; auto; try lra.
      * apply (representable_Z 0). reflexivity.
      * apply (representable_Z 1). reflexivity.
  - injection Hp as <-. split; [exact Hr | lra].
Qed.
End InferenceOutput.

(** C10: when no model is loaded, [predict_from_model] returns a value in
    [0.75, 0.95]; every scan that reaches the persistence step is labelled
    "Normal" with a percentage in [75, 95]; and no response of [predict]
    carries another label. *)
Theorem demo_mode_always_normal (cfg : Config) (env : Env) :
  model cfg = None ->
  (0 <= random_sample env < 1)%Q ->
  (forall input, exists p,
      predict_from_model cfg env input = Ok p /\ (75 # 100 <= p <= 95 # 100)%Q) /\
  (forall req (f : gmap string Os.Blob) c f',
      predict_steps cfg env req f = Reached c f' ->
      s_label c = "Normal" /\ (75 <= s_confidence_pct c <= 95)%Q) /\
  (forall req w v,
      response_label (fst (predict cfg env req w)) = Some v -> v = JStr "Normal") /\
  (forall req w v,
      response_confidence_pct (fst (predict cfg env req w)) = Some v ->
      exists q, v = JNum q /\ (75 <= q <= 95)%Q).
Proof.
  intros Hm Hu. split; [| split; [| split]].
  - intros input. destruct (demo_probability cfg env Hm Hu input) as (p & Hp & Hlo & Hhi).
    exists p. split; [exact Hp |]. pose proof demo_upper_literal. split; lra.
  - intros req f c f'. now apply demo_scan.
  - intros req w v. unfold predict.
    destruct (predict_steps cfg env req (fs w)) as [r f' | e f' | c f'] eqn:E; cbn [fst].
    + apply predict_steps_returned in E as (msg & d & code & ->).
      unfold response_label. now rewrite error_response_has_no_result.
    + unfold response_label. now rewrite error_response_has_no_result.
    + rewrite success_response_label. intros [= <-].
      now destruct (demo_scan cfg env Hm Hu req _ _ _ E) as [-> _].
  - intros req w v. unfold predict.
    destruct (predict_steps cfg env req (fs w)) as [r f' | e f' | c f'] eqn:E; cbn [fst].
    + apply predict_steps_returned in E as (msg & d & code & ->).
      unfold response_confidence_pct. now rewrite error_response_has_no_result.
    + unfold response_confidence_pct. now rewrite error_response_has_no_result.
    + rewrite success_response_pct. intros [= <-].
      destruct (demo_scan cfg env Hm Hu req _ _ _ E) as [_ Hb]. eauto.
Qed.

(** A JSON upload of [hand.png] in demo mode with sample [u = 0.5]. *)
Lemma demo_mode_always_normal_witness :
  exists c f',
    predict_steps Sample.demo_cfg Sample.env
      (Sample.upload "hand.png" Sample.json_headers) ∅ = Reached c f' /\
    s_label c = "Normal" /\ (75 <= s_confidence_pct c <= 95)%Q.
Proof.
  assert (Hm : model Sample.demo_cfg = None) by reflexivity.
  assert (Hu : (0 <= random_sample Sample.env < 1)%Q) by (simpl; lra).
  destruct (demo_mode_always_normal Sample.demo_cfg Sample.env Hm Hu) as (_ & H & _).
  destruct (predict_steps Sample.demo_cfg Sample.env
              (Sample.upload "hand.png" Sample.json_headers) ∅)
    as [r f' | e f' | c f'] eqn:E.
  - vm_compute in E. discriminate E.
  - vm_compute in E. discriminate E.
  - exists c, f'. split; [reflexivity | exact (H _ _ _ _ E)].
Defined.



(** C1, amended: a request without a ["file"] part leaves the upload
    directory and the table unchanged and is answered with the text
    "No file uploaded": as a JSON error with status 400 when the client
    wants JSON, and otherwise as the dashboard page carrying the error,
    returned with status 200. *)
Theorem missing_file_is_rejected (cfg : Config) (env : Env) (req : Request) (w : World) :
  files req !! "file" = None ->
  snd (predict cfg env req w) = w /\
  body_has_text "No file uploaded" (body (fst (predict cfg env req w))) /\
  (request_wants_json req = true ->
   fst (predict cfg env req w) =
   {| status := 400; body := Json [("error", JStr "No file uploaded")] |}) /\
  (request_wants_json req = false ->
   fst (predict cfg env req w) =
   {| status := 200;
      body := Html "dashboard.html" [("error", JStr "No file uploaded")] |}).
Proof.
  intros Hnone. unfold predict, predict_steps. rewrite Hnone. cbn [fst snd].
  split; [now destruct w |].
  unfold error_response.
  destruct (request_wants_json req); cbn [body body_has_text].
  - split; [| split; [reflexivity | discriminate]].
    exists "error". apply list_elem_of_here.
  - split; [| split; [discriminate | reflexivity]].
    exists "error". apply list_elem_of_here.
Qed.

(** A JSON post without a file part. *)
Lemma missing_file_is_rejected_witness :
  snd (predict Sample.demo_cfg Sample.env (Sample.no_file Sample.json_headers)
         Sample.world) = Sample.world.
Proof.
  refine (proj1 (missing_file_is_rejected Sample.demo_cfg Sample.env
                   (Sample.no_file Sample.json_headers) Sample.world _)).
  vm_compute. reflexivity.
Defined.

(** C1 as stated fails for a browser post: without a file part and without
    JSON negotiation the answer is the dashboard page with status 200. *)
Lemma missing_file_html_status_200 :
  files (Sample.no_file ∅) !! "file" = None /\
  status (fst (predict Sample.demo_cfg Sample.env (Sample.no_file ∅) Sample.world)) = 200 /\
  status (fst (predict Sample.demo_cfg Sample.env (Sample.no_file ∅) Sample.world)) <> 400.
Proof. vm_compute. repeat split; discriminate. Qed.

(** ** Splitting names at the last dot *)

Section Splitting.
Import PyStr.
Variable sep : ascii.

Lemma app_cons (c : ascii) (a b : string) : String c a +:+ b = String c (a +:+ b).
Proof. reflexivity. Qed.

Lemma app_empty (b : string) : "" +:+ b = b.
Proof. reflexivity. Qed.

Lemma str_app_assoc (a b c : string) : (a +:+ b) +:+ c = a +:+ (b +:+ c).
Proof.
  induction a as [| x a IH]; [reflexivity |].
  rewrite !app_cons. now rewrite IH.
Qed.

Lemma has_char_app (a b : string) :
  has_char sep (a +:+ b) = has_char sep a || has_char sep b.
Proof.
  induction a as [| x a IH]; [reflexivity |].
  rewrite app_cons. simpl. now rewrite IH, orb_assoc.
Qed.

Lemma after_last_none (s : string) :
  after_last sep s = None <-> has_char sep s = false.
Proof.
  induction s as [| c s IH]; simpl; [tauto |].
  destruct (after_last sep s) as [t |].
  - split; [discriminate |]. intros H. apply orb_false_elim in H as [_ H].
    apply IH in H. discriminate.
  - destruct (Ascii.eqb c sep); simpl.
    + split; discriminate.
    + split; [intros _; now apply IH | reflexivity].
Qed.

Lemma after_last_some (s : string) :
  has_char sep s = true -> exists e, after_last sep s = Some e.
Proof.
  intros H. destruct (after_last sep s) as [e |] eqn:E; [eauto |].
  apply after_last_none in E. congruence.
Qed.

(** The two halves returned by [rsplit(sep, 1)] rebuild the string, and
    the last half holds no separator. *)
Lemma split_last (s e : string) :
  after_last sep s = Some e ->
  exists stem, before_last sep s = Some stem /\
               s = stem +:+ String sep e /\ has_char sep e = false.
Proof.
  revert e. induction s as [| c s IH]; intros e; simpl; [discriminate |].
  destruct (after_last sep s) as [t |] eqn:E.
  - intros [= <-]. destruct (IH t eq_refl) as (stem & Hb & Hs & Hn).
    exists (String c stem). rewrite Hb, app_cons. now rewrite <- Hs.
  - destruct (Ascii.eqb c sep) eqn:Ec; [| discriminate].
    intros [= <-]. apply Ascii.eqb_eq in Ec. subst c.
    assert (Hb : before_last sep s = None).
    { clear IH. induction s as [| d s IHs]; simpl in *; [reflexivity |].
      destruct (after_last sep s); [discriminate |].
      destruct (Ascii.eqb d sep); [discriminate |]. now rewrite IHs. }
    rewrite Hb. exists "". split; [reflexivity |]. split; [reflexivity |].
    now apply after_last_none.
Qed.

Lemma after_last_app_tail (a e : string) :
  has_char sep e = false -> after_last sep (a +:+ String sep e) = Some e.
Proof.
  intros H. induction a as [| c a IH].
  - rewrite app_empty. simpl. apply after_last_none in H. rewrite H.
    now rewrite Ascii.eqb_refl.
  - rewrite app_cons. simpl. now rewrite IH.
Qed.

Lemma after_last_app (a b : string) :
  has_char sep b = true -> after_last sep (a +:+ b) = after_last sep b.
Proof.
  intros H. destruct (after_last_some b H) as [e He].
  induction a as [| c a IH]; [reflexivity |].
  rewrite app_cons. simpl. now rewrite IH, He.
Qed.

Lemma before_last_app (a b stem : string) :
  before_last sep b = Some stem -> before_last sep (a +:+ b) = Some (a +:+ stem).
Proof.
  intros H. induction a as [| c a IH]; [exact H |].
  rewrite !app_cons. simpl. now rewrite IH.
Qed.

Lemma endswith_refl (s : string) : endswith s s = true.
Proof. destruct s; simpl; [reflexivity |]. now rewrite String.eqb_refl, Ascii.eqb_refl. Qed.

Lemma endswith_app (a b : string) : endswith (a +:+ b) b = true.
Proof.
  induction a as [| c a IH].
  - apply endswith_refl.
  - rewrite app_cons. simpl. rewrite IH. apply orb_true_r.
Qed.
End Splitting.

Section Extensions.
Import PyStr.

Lemma file_ext_split (stem e : string) :
  has_char "." e = false -> file_ext (stem +:+ String "." e) = lower e.
Proof.
  intros H. unfold file_ext, rsplit1_last.
  rewrite has_char_app. simpl. rewrite orb_true_r.
  now rewrite after_last_app_tail.
Qed.

Lemma file_ext_app (a b : string) :
  has_char "." b = true -> file_ext (a +:+ b) = file_ext b.
Proof.
  intros H. unfold file_ext, rsplit1_last.
  rewrite has_char_app, H, orb_true_r. rewrite (after_last_app "." a b H).
  now destruct (after_last_some "." b H) as [e ->].
Qed.

Lemma file_ext_nonempty_has_dot (name : string) :
  file_ext name <> "" -> has_char "." name = true.
Proof. unfold file_ext. destruct (has_char "." name); [reflexivity | congruence]. Qed.

Lemma allowed_ext_supported (e : string) : e ∈ ALLOWED_EXT <-> e ∈ SUPPORTED.
Proof. unfold ALLOWED_EXT, SUPPORTED. set_unfold. tauto. Qed.

Lemma allowed_file_iff (name : string) :
  allowed_file name = true <-> has_supported_extension name.
Proof.
  unfold allowed_file. rewrite bool_decide_eq_true, allowed_ext_supported.
  split.
  - intros H.
    assert (Hd : has_char "." name = true).
    { apply file_ext_nonempty_has_dot. intros E. rewrite E in H.
      unfold SUPPORTED in H. set_unfold. intuition discriminate. }
    destruct (after_last_some "." name Hd) as [e He].
    destruct (split_last "." name e He) as (stem & _ & Hs & Hn).
    exists stem, e. split; [exact Hs |]. split; [exact Hn |].
    unfold file_ext, rsplit1_last in H. now rewrite Hd, He in H.
  - intros (stem & e & -> & Hn & He). rewrite app_cons, app_empty.
    now rewrite file_ext_split.
Qed.

Lemma path_join_suffix (a b : string) : exists pre, Os.path_join a b = pre +:+ b.
Proof.
  unfold Os.path_join.
  destruct b as [| c b]; [| destruct (Ascii.eqb c "/") eqn:E].
  - destruct (_ || _); [now exists a | exists (a +:+ "/")]. now rewrite str_app_assoc.
  - apply Ascii.eqb_eq in E. subst c. now exists "".
  - assert (Hc : Os.path_join a (String c b) =
                 if String.eqb a "" || endswith a "/"
                 then a +:+ String c b else a +:+ "/" +:+ String c b).
    { unfold Os.path_join.
      destruct c as [[] [] [] [] [] [] [] []]; try reflexivity. discriminate E. }
    unfold Os.path_join in Hc. rewrite Hc.
    destruct (_ || _); [now exists a | exists (a +:+ "/")]. now rewrite str_app_assoc.
Qed.

Lemma file_ext_path_join (a b : string) :
  has_char "." b = true -> file_ext (Os.path_join a b) = file_ext b.
Proof.
  intros H. destruct (path_join_suffix a b) as [pre ->]. now apply file_ext_app.
Qed.
End Extensions.

(** ** The extension gate and the WEBP normalisation *)

Section Gate.
Context (cfg : Config) (env : Env) (req : Request).

Lemma error_response_status msg details code :
  status (error_response req msg details code) =
  if request_wants_json req then code else 200.
Proof. unfold error_response. now destruct (request_wants_json req). Qed.

Lemma error_response_first_char a m e c b m' c' :
  error_response req (String a m) (Some e) c = error_response req (String b m') None c' ->
  a = b.
Proof.
  unfold error_response. destruct (request_wants_json req); [discriminate |].
  rewrite app_cons. intros [= -> _]. reflexivity.
Qed.

Lemma progress_fs_infer patient saved path (f : gmap string Os.Blob) :
  progress_fs (infer_and_label cfg env req patient saved path f) = f.
Proof.
  unfold infer_and_label.
  destruct (TF_AVAILABLE cfg && bool_decide (is_Some (model cfg))).
  - destruct (preprocess_error env); [reflexivity |].
    now destruct (predict_from_model cfg env (f !! path)).
  - now destruct (predict_from_model cfg env None).
Qed.

(** What [predict_steps] does once the four validations have passed. *)
Lemma predict_steps_validated (f : gmap string Os.Blob) file :
  passes_validation req file ->
  predict_steps cfg env req f =
  let patient := PyStr.strip (dict_get (form req) "patient_name" "") in
  let filepath := Os.path_join (UPLOAD_DIR cfg) (upload_name env file) in
  match save_error env with
  | Some e =>
      Unhandled e
        match save_partial env with
        | Some written => <[filepath := Os.Uploaded written]> f
        | None => f
        end
  | None =>
      let fs1 := <[filepath := Os.Uploaded (content file)]> f in
      if String.eqb (file_ext (Werkzeug.secure_filename (filename file))) "webp"
      then
        match convert_error env with
        | Some e =>
            Returned (error_response req "WEBP conversion failed" (Some e) 400) fs1
        | None =>
            let new_path := Os.path_join (UPLOAD_DIR cfg) (png_name env file) in
            let fs2 := <[new_path := Os.PngOf (content file)]> fs1 in
            let fs3 := if remove_fails env then fs2 else delete filepath fs2 in
            infer_and_label cfg env req patient (png_name env file) new_path fs3
        end
      else infer_and_label cfg env req patient (upload_name env file) filepath fs1
  end.
Proof.
  intros (Hf & Hn & Hp & Ha). unfold predict_steps. rewrite Hf.
  apply String.eqb_neq in Hn, Hp. rewrite Hn, Hp, Ha. reflexivity.
Qed.

Lemma validated_not_rejected (f : gmap string Os.Blob) file :
  passes_validation req file ->
  ~ aborted_with (predict_steps cfg env req f)
      (error_response req "File type not allowed" None 400).
Proof.
  intros Hv [f' H]. rewrite (predict_steps_validated f file Hv) in H.
  cbv zeta in H.
  destruct (save_error env); [discriminate |].
  destruct (String.eqb _ "webp").
  - destruct (convert_error env).
    + injection H as H _. apply error_response_first_char in H. discriminate.
    + apply infer_and_label_returned in H as (_ & e & H).
      apply eq_sym, error_response_first_char in H. discriminate.
  - apply infer_and_label_returned in H as (_ & e & H).
    apply eq_sym, error_response_first_char in H. discriminate.
Qed.
End Gate.

(** C6, amended: [allowed_file] accepts a name exactly when the segment
    after its last dot, lower-cased, is one of png, jpg, jpeg, gif, webp.
    A request with a file part, a non-empty file name and a non-blank
    patient name is stopped with "File type not allowed", nothing being
    saved, exactly when the name is not accepted; that answer has status
    400 when the client wants JSON and 200 (the dashboard page) otherwise. *)
Theorem extension_gate (name : string) :
  (allowed_file name = true <-> has_supported_extension name) /\
  forall cfg env req (fs0 : gmap string Os.Blob) file,
    files req !! "file" = Some file -> filename file = name -> name <> "" ->
    PyStr.strip (dict_get (form req) "patient_name" "") <> "" ->
    let rejection := error_response req "File type not allowed" None 400 in
    status rejection = (if request_wants_json req then 400 else 200) /\
    (~ has_supported_extension name ->
     predict_steps cfg env req fs0 = Returned rejection fs0) /\
    (has_supported_extension name ->
     ~ aborted_with (predict_steps cfg env req fs0) rejection).
Proof.
  split; [apply allowed_file_iff |].
  intros cfg env req fs0 file Hf Hname Hne Hp rejection.
  split; [apply error_response_status |]. split.
  - intros Hno. unfold predict_steps. rewrite Hf, Hname.
    apply String.eqb_neq in Hne, Hp. rewrite Hne, Hp.
    destruct (allowed_file name) eqn:Ha; [| reflexivity].
    now apply allowed_file_iff in Ha.
  - intros Hyes. apply (validated_not_rejected cfg env req fs0 file).
    repeat split; try congruence. rewrite Hname. now apply allowed_file_iff.
Qed.

(** A JSON upload of [notes.txt]. *)
Lemma extension_gate_witness :
  predict_steps Sample.demo_cfg Sample.env
    (Sample.upload "notes.txt" Sample.json_headers) ∅ =
  Returned {| status := 400; body := Json [("error", JStr "File type not allowed")] |} ∅.
Proof.
  destruct (extension_gate "notes.txt") as [Hiff H].
  refine (proj1 (proj2 (H Sample.demo_cfg Sample.env
           (Sample.upload "notes.txt" Sample.json_headers) ∅
           {| filename := "notes.txt"; content := "RIFF....WEBP" |} _ _ _ _)) _).
  - vm_compute. reflexivity.
  - reflexivity.
  - discriminate.
  - vm_compute. discriminate.
  - intros Hs. apply Hiff in Hs. vm_compute in Hs. discriminate Hs.
Defined.

(** C6 as stated fails for a browser upload: [notes.txt] is refused with the
    dashboard page, status 200, not 400. *)
Lemma unsupported_extension_html_status_200 :
  let r := fst (predict Sample.demo_cfg Sample.env (Sample.upload "notes.txt" ∅)
                  Sample.world) in
  allowed_file "notes.txt" = false /\ status r = 200 /\ status r <> 400 /\
  response_error r = Some (JStr "File type not allowed").
Proof. vm_compute. repeat split; discriminate. Qed.

Section Webp.
Context (cfg : Config) (env : Env) (file : FileStorage).
Hypothesis ext_webp : file_ext (Werkzeug.secure_filename (filename file)) = "webp".

Lemma sanitized_has_dot :
  PyStr.has_char "." (Werkzeug.secure_filename (filename file)) = true.
Proof. apply file_ext_nonempty_has_dot. rewrite ext_webp. discriminate. Qed.

Lemma upload_name_has_dot : PyStr.has_char "." (upload_name env file) = true.
Proof.
  unfold upload_name. rewrite !has_char_app, sanitized_has_dot.
  now rewrite !orb_true_r.
Qed.

Lemma upload_name_ext : file_ext (upload_name env file) = "webp".
Proof.
  unfold upload_name. rewrite <- str_app_assoc.
  rewrite file_ext_app; [exact ext_webp | exact sanitized_has_dot].
Qed.

Lemma png_name_ext : file_ext (png_name env file) = "png".
Proof.
  unfold png_name. now rewrite file_ext_split.
Qed.

Lemma png_name_has_dot : PyStr.has_char "." (png_name env file) = true.
Proof. apply file_ext_nonempty_has_dot. rewrite png_name_ext. discriminate. Qed.

Lemma webp_path_not_png_path :
  Os.path_join (UPLOAD_DIR cfg) (upload_name env file) <>
  Os.path_join (UPLOAD_DIR cfg) (png_name env file).
Proof.
  intros H. apply (f_equal file_ext) in H.
  rewrite (file_ext_path_join _ _ upload_name_has_dot) in H.
  rewrite (file_ext_path_join _ _ png_name_has_dot) in H.
  rewrite upload_name_ext, png_name_ext in H. discriminate.
Qed.

Lemma png_name_endswith : PyStr.endswith (png_name env file) ".png" = true.
Proof. unfold png_name. apply endswith_app. Qed.

Lemma png_image_path_endswith :
  PyStr.endswith ("/static/uploads/" +:+ png_name env file) ".png" = true.
Proof. unfold png_name. rewrite <- str_app_assoc. apply endswith_app. Qed.
End Webp.

(** C5, amended: for a validated upload whose sanitized name has extension
    webp and which is saved: if the conversion raises, the run stops before
    inference with "WEBP conversion failed" (status 400 for JSON, the
    dashboard page with status 200 otherwise), the uploaded file staying on
    disk; if it succeeds, the PNG is on disk, the WEBP file is gone whenever
    [os.remove] did not fail, and the saved name and image path of the scan
    end in ".png". *)
Theorem webp_upload_is_normalised
        (cfg : Config) (env : Env) (req : Request)
        (fs0 : gmap string Os.Blob) (file : FileStorage) :
  passes_validation req file ->
  save_error env = None ->
  file_ext (Werkzeug.secure_filename (filename file)) = "webp" ->
  let webp_path := Os.path_join (UPLOAD_DIR cfg) (upload_name env file) in
  let png_path := Os.path_join (UPLOAD_DIR cfg) (png_name env file) in
  let run := predict_steps cfg env req fs0 in
  (forall e, convert_error env = Some e ->
     let failure := error_response req "WEBP conversion failed" (Some e) 400 in
     run = Returned failure (<[webp_path := Os.Uploaded (content file)]> fs0) /\
     status failure = (if request_wants_json req then 400 else 200)) /\
  (convert_error env = None ->
     progress_fs run !! png_path = Some (Os.PngOf (content file)) /\
     (remove_fails env = false -> progress_fs run !! webp_path = None) /\
     (forall c f', run = Reached c f' ->
        s_saved_name c = png_name env file /\
        PyStr.endswith (s_saved_name c) ".png" = true /\
        PyStr.endswith (s_image_path c) ".png" = true)).
Proof.
  intros Hv Hsave Hext webp_path png_path run.
  assert (Hrun : run =
    match convert_error env with
    | Some e => Returned (error_response req "WEBP conversion failed" (Some e) 400)
                  (<[webp_path := Os.Uploaded (content file)]> fs0)
    | None =>
        infer_and_label cfg env req
          (PyStr.strip (dict_get (form req) "patient_name" ""))
          (png_name env file) png_path
          (if remove_fails env
           then <[png_path := Os.PngOf (content file)]>
                  (<[webp_path := Os.Uploaded (content file)]> fs0)
           else delete webp_path
                  (<[png_path := Os.PngOf (content file)]>
                     (<[webp_path := Os.Uploaded (content file)]> fs0)))
    end).
  { unfold run. rewrite (predict_steps_validated cfg env req fs0 file Hv).
    cbv zeta. now rewrite Hsave, Hext. }
  pose proof (webp_path_not_png_path cfg env file Hext) as Hne.
  fold webp_path png_path in Hne.
  split.
  - intros e He failure. rewrite Hrun, He. split; [reflexivity |].
    apply error_response_status.
  - intros Hok. rewrite Hrun, Hok. rewrite progress_fs_infer.
    split; [| split].
    + destruct (remove_fails env).
      * apply lookup_insert_eq.
      * rewrite lookup_delete_ne by exact Hne. apply lookup_insert_eq.
    + intros ->. apply lookup_delete_eq.
    + intros c f' H. apply infer_and_label_reached in H as (_ & i & p & _ & ->).
      unfold s_image_path. cbn [s_saved_name scan_of].
      split; [reflexivity |]. split.
      * apply png_name_endswith.
      * apply png_image_path_endswith.
Qed.

(** A JSON upload of [hand.webp] in demo mode: the WEBP file is gone. *)
Lemma webp_upload_is_normalised_witness :
  progress_fs (predict_steps Sample.demo_cfg Sample.env
                 (Sample.upload "hand.webp" Sample.json_headers) ∅)
    !! "/srv/app/static/uploads/20260101120000000000_hand.webp" = None.
Proof.
  refine (proj1 (proj2 (proj2 (webp_upload_is_normalised Sample.demo_cfg Sample.env
           (Sample.upload "hand.webp" Sample.json_headers) ∅
           {| filename := "hand.webp"; content := "RIFF....WEBP" |} _ _ _) _)) _).
  - repeat split; vm_compute; try reflexivity; discriminate.
  - reflexivity.
  - vm_compute. reflexivity.
  - reflexivity.
  - reflexivity.
Defined.

(** C5 as stated fails on two designed paths. A browser upload of
    [hand.webp] whose decoding raises is answered with the dashboard page,
    status 200, not 400. And when [os.remove] raises after a successful
    conversion, the request still succeeds and the WEBP file stays on
    disk next to the PNG. *)
Lemma webp_upload_counterexamples :
  (let r := fst (predict Sample.demo_cfg Sample.env_bad_webp
                   (Sample.upload "hand.webp" ∅) Sample.world) in
   file_ext "hand.webp" = "webp" /\
   response_error r = Some (JStr "WEBP conversion failed: cannot identify image file") /\
   status r = 200 /\ status r <> 400) /\
  (let out := predict Sample.demo_cfg Sample.env_locked_file
                (Sample.upload "hand.webp" Sample.json_headers) Sample.world in
   status (fst out) = 200 /\
   fs (snd out) !! "/srv/app/static/uploads/20260101120000000000_hand.png"
   = Some (Os.PngOf "RIFF....WEBP") /\
   fs (snd out) !! "/srv/app/static/uploads/20260101120000000000_hand.webp"
   = Some (Os.Uploaded "RIFF....WEBP")).
Proof. vm_compute. repeat split; discriminate. Qed.

(** The extension tested before the conversion is that of the sanitized
    name. An upload named [.webp] passes [allowed_file], is sanitized to
    [webp], which has no extension, and is therefore stored and classified
    as it was sent: no PNG is written. *)
Lemma dot_webp_upload_is_not_converted :
  let out := predict Sample.demo_cfg Sample.env
               (Sample.upload ".webp" Sample.json_headers) Sample.world in
  allowed_file ".webp" = true /\
  Werkzeug.secure_filename ".webp" = "webp" /\
  status (fst out) = 200 /\
  response_field "image_path" "image_path" (fst out)
  = Some (JStr "/static/uploads/20260101120000000000_webp") /\
  fs (snd out) !! "/srv/app/static/uploads/20260101120000000000_webp"
  = Some (Os.Uploaded "RIFF....WEBP") /\
  size (fs (snd out)) = 1%nat.
Proof. vm_compute. repeat split. Qed.

(** ** The predictions table *)

Section Upsert.
Import Storage.

Lemma filter_by_scan_id_In sid l r :
  In r (filter_by_scan_id sid l) <-> In r l /\ scan_id r = sid.
Proof.
  unfold filter_by_scan_id. rewrite List.filter_In.
  now rewrite String.eqb_eq.
Qed.

Lemma filter_by_scan_id_nil sid l :
  filter_by_scan_id sid l = [] -> ~ In sid (List.map scan_id l).
Proof.
  intros H Hin. apply List.in_map_iff in Hin as (r & Hr & Hl).
  assert (Hf : In r (filter_by_scan_id sid l)) by now apply filter_by_scan_id_In.
  now rewrite H in Hf.
Qed.

Lemma filter_by_scan_id_unique sid l a b t :
  NoDup (List.map scan_id l) -> filter_by_scan_id sid l <> a :: b :: t.
Proof.
  induction l as [| x l IH]; intros Hnd H; [discriminate |].
  simpl in Hnd. apply NoDup_cons in Hnd as [Hx Hnd].
  rewrite list_elem_of_In in Hx.
  unfold filter_by_scan_id in H. simpl in H.
  destruct (String.eqb (scan_id x) sid) eqn:E.
  - injection H as -> H. apply String.eqb_eq in E.
    assert (Hb : In b (filter_by_scan_id sid l)).
    { unfold filter_by_scan_id. rewrite H. now left. }
    apply filter_by_scan_id_In in Hb as [Hb Hs].
    apply Hx. rewrite E, <- Hs. now apply List.in_map.
  - now apply (IH Hnd).
Qed.

Lemma sorted_head_below (i : Z) (l : list Z) :
  StronglySorted Z.lt (i :: l) -> Forall (fun j => i < j) l.
Proof. intros H. now apply StronglySorted_inv in H. Qed.

(** With distinct primary keys, flushing a modified object rewrites the
    one position it was loaded from. *)
Lemma flush_update_at (l : list Prediction) (i : nat) (old new : Prediction) :
  StronglySorted Z.lt (List.map id l) ->
  l !! i = Some old -> id new = id old ->
  flush_update new l = <[i := new]> l.
Proof.
  revert i. induction l as [| x l IH]; intros i Hs Hi Hid; [discriminate |].
  simpl in Hs. pose proof (sorted_head_below _ _ Hs) as Hlt.
  apply StronglySorted_inv in Hs as [Hs _].
  destruct i as [| i]; simpl in Hi.
  - injection Hi as ->. simpl. rewrite Hid, Z.eqb_refl. f_equal.
    clear IH Hs. induction l as [| y l IHl]; [reflexivity |].
    simpl in *. apply List.Forall_cons_iff in Hlt as [Hy Hlt].
    rewrite IHl by exact Hlt.
    destruct (Z.eqb_spec (id y) (id new)); [lia | reflexivity].
  - simpl. rewrite (IH i Hs Hi Hid).
    assert (Hin : In (id old) (List.map id l)).
    { apply List.in_map. apply list_elem_of_In. now apply list_elem_of_lookup_2 in Hi. }
    rewrite List.Forall_forall in Hlt. specialize (Hlt _ Hin).
    destruct (Z.eqb_spec (id x) (id new)); [lia | reflexivity].
Qed.

Lemma map_insert_same {B : Type} (f : Prediction -> B) (l : list Prediction) i old new :
  l !! i = Some old -> f new = f old ->
  List.map f (<[i := new]> l) = List.map f l.
Proof.
  revert i. induction l as [| x l IH]; intros [| i] Hi Hf; simpl in *;
    try discriminate.
  - injection Hi as ->. now rewrite Hf.
  - f_equal. now apply IH.
Qed.

Lemma sorted_snoc (l : list Z) (n : Z) :
  StronglySorted Z.lt l -> Forall (fun i => i < n) l -> StronglySorted Z.lt (l ++ [n]).
Proof.
  induction 1 as [| x l Hs IH Hx]; intros Hn; simpl.
  - repeat constructor.
  - apply List.Forall_cons_iff in Hn as [Hxn Hn]. constructor; [now apply IH |].
    apply List.Forall_app. split; [exact Hx | now constructor].
Qed.

(** The update branch. *)
Lemma call_existing (d : DB) (u : Table.Upsert) :
  Table.ok d -> db_error (Table.u_session u) = None ->
  In (Table.u_scan_id u) (List.map scan_id (rows d)) ->
  exists i old,
    rows d !! i = Some old /\ scan_id old = Table.u_scan_id u /\
    Table.call d u = Ok {| rows := <[i := Table.assigned u old]> (rows d);
                           next_id := next_id d |}.
Proof.
  intros [Hs Hb Hnd] He Hin. unfold Table.call, insert_prediction. rewrite He.
  destruct (filter_by_scan_id (Table.u_scan_id u) (rows d)) as [| obj [| b t]] eqn:F.
  - now apply filter_by_scan_id_nil in F.
  - assert (Ho : In obj (filter_by_scan_id (Table.u_scan_id u) (rows d))).
    { rewrite F. now left. }
    apply filter_by_scan_id_In in Ho as [Ho Hsid].
    apply list_elem_of_In, list_elem_of_lookup in Ho as [i Hi].
    exists i, obj. split; [exact Hi |]. split; [exact Hsid |].
    fold (Table.assigned u obj).
    now rewrite (flush_update_at (rows d) i obj (Table.assigned u obj) Hs Hi eq_refl).
  - now apply filter_by_scan_id_unique in F.
Qed.

(** The insert branch. *)
Lemma call_fresh (d : DB) (u : Table.Upsert) :
  Table.ok d -> db_error (Table.u_session u) = None ->
  ~ In (Table.u_scan_id u) (List.map scan_id (rows d)) ->
  exists new,
    id new = next_id d /\ scan_id new = Table.u_scan_id u /\
    Table.call d u = Ok {| rows := rows d ++ [new]; next_id := next_id d + 1 |}.
Proof.
  intros _ He Hin. unfold Table.call, insert_prediction. rewrite He.
  destruct (filter_by_scan_id (Table.u_scan_id u) (rows d)) as [| obj t] eqn:F.
  - eexists. split; [| split; [| reflexivity]]; reflexivity.
  - exfalso. apply Hin.
    assert (Ho : In obj (filter_by_scan_id (Table.u_scan_id u) (rows d))).
    { rewrite F. now left. }
    apply filter_by_scan_id_In in Ho as [Ho <-]. now apply List.in_map.
Qed.

Lemma after_ok (d : DB) (u : Table.Upsert) : Table.ok d -> Table.ok (Table.after d u).
Proof.
  intros Hok. unfold Table.after.
  destruct (db_error (Table.u_session u)) as [e |] eqn:He.
  { unfold Table.call, insert_prediction. now rewrite He. }
  destruct (List.in_dec string_dec (Table.u_scan_id u) (List.map scan_id (rows d)))
    as [Hin | Hin].
  - destruct (call_existing d u Hok He Hin) as (i & old & Hi & Hsid & ->).
    destruct Hok as [Hs Hb Hnd].
    split; cbn [rows next_id].
    + now rewrite (map_insert_same id _ i old).
    + now rewrite (map_insert_same id _ i old).
    + now rewrite (map_insert_same scan_id _ i old).
  - destruct (call_fresh d u Hok He Hin) as (new & Hid & Hsid & ->).
    destruct Hok as [Hs Hb Hnd].
    split; cbn [rows next_id]; rewrite List.map_app; simpl.
    + rewrite Hid. now apply sorted_snoc.
    + apply List.Forall_app. split.
      * eapply List.Forall_impl; [| exact Hb]. simpl. intros. lia.
      * constructor; [lia | constructor].
    + rewrite Hsid. apply NoDup_app. split; [exact Hnd |]. split.
      * intros x Hx Hx'. apply list_elem_of_In in Hx.
        apply list_elem_of_singleton in Hx'. now subst.
      * apply NoDup_singleton.
Qed.

Lemma run_ok (calls : list Table.Upsert) (d : DB) :
  Table.ok d -> Table.ok (Table.run calls d).
Proof.
  revert d. induction calls as [| u calls IH]; intros d Hok; [exact Hok |].
  simpl. apply IH. now apply after_ok.
Qed.

Lemma empty_db_ok : Table.ok empty_db.
Proof. split; simpl; constructor. Qed.
End Upsert.

Section UpsertClaims.
Import Storage.

Lemma unique_filter (sid : string) (l : list Prediction) :
  NoDup (List.map scan_id l) -> (length (filter_by_scan_id sid l) <= 1)%nat.
Proof.
  intros Hnd. destruct (filter_by_scan_id sid l) as [| a [| b t]] eqn:F; simpl; try lia.
  now apply filter_by_scan_id_unique in F.
Qed.

(** C3: after any sequence of upserts on a well-formed table no [scan_id]
  occurs twice (from the empty table: at most one row per [scan_id]); an
  upsert whose [scan_id] is present succeeds, rewrites that one row in
  place and leaves the number of rows unchanged; the rewritten row holds
  the supplied patient name, label, confidence, inference time and image
  path and the current time, and keeps its primary key, [scan_id] and
  [true_label]. *)
Theorem upsert_keeps_one_row_per_scan_id :
  (forall calls d, Table.ok d ->
     NoDup (List.map scan_id (rows (Table.run calls d)))) /\
  (forall calls sid,
     (length (filter_by_scan_id sid (rows (Table.run calls empty_db))) <= 1)%nat) /\
  (forall d u,
     Table.ok d -> db_error (Table.u_session u) = None ->
     In (Table.u_scan_id u) (List.map scan_id (rows d)) ->
     exists i old,
       rows d !! i = Some old /\ scan_id old = Table.u_scan_id u /\
       Table.call d u = Ok {| rows := <[i := Table.assigned u old]> (rows d);
                              next_id := next_id d |} /\
       length (rows (Table.after d u)) = length (rows d)) /\
  (forall u old,
     let new := Table.assigned u old in
     patient_name new = Table.u_patient_name u /\
     label new = Table.u_label u /\
     confidence new = Table.u_confidence u /\
     inference_time new = Table.u_inference_time u /\
     image_path new = Table.u_image_path u /\
     timestamp new = utcnow (Table.u_session u) /\
     id new = id old /\ scan_id new = scan_id old /\
     true_label new = true_label old).
Proof.
  split; [| split; [| split]].
  - intros calls d Hok. now destruct (run_ok calls d Hok).
  - intros calls sid. apply unique_filter.
    now destruct (run_ok calls empty_db empty_db_ok).
  - intros d u Hok He Hin.
    destruct (call_existing d u Hok He Hin) as (i & old & Hi & Hsid & Hc).
    exists i, old. repeat split; try assumption.
    unfold Table.after. rewrite Hc. cbn [rows]. apply length_insert.
  - intros u old. repeat split.
Qed.

(** A second write for scan [A260101120001] on a table of two rows. *)
Lemma upsert_keeps_one_row_per_scan_id_witness :
  rows (Table.after Sample.two_rows (Sample.upsert "A260101120001" "John Roe")) =
  [Sample.row 1 "A260101120000" "Normal" None;
   Table.assigned (Sample.upsert "A260101120001" "John Roe")
     (Sample.row 2 "A260101120001" "Fractured" (Some "Fractured"))].
Proof.
  destruct upsert_keeps_one_row_per_scan_id as (_ & _ & H & _).
  assert (Hok : Table.ok Sample.two_rows).
  { split; simpl.
    - repeat constructor.
    - repeat constructor.
    - apply NoDup_cons. split; [| apply NoDup_singleton].
      intros Hin. apply list_elem_of_singleton in Hin. discriminate Hin. }
  destruct (H Sample.two_rows (Sample.upsert "A260101120001" "John Roe") Hok eq_refl)
    as (i & old & Hi & Hsid & Hc & _).
  - simpl. right. now left.
  - unfold Table.after. rewrite Hc. cbn [rows].
    destruct i as [| [| i]]; simpl in Hi.
    + injection Hi as <-. discriminate Hsid.
    + injection Hi as <-. reflexivity.
    + discriminate Hi.
Defined.
End UpsertClaims.

Section Stats.
Import Storage.

Lemma sql_count_nonneg p l : 0 <= sql_count p l.
Proof. unfold sql_count. lia. Qed.

Lemma sql_avg_none l : sql_avg l = None <-> l = [].
Proof. destruct l; simpl; split; congruence. Qed.

Lemma sql_count_pos p l r : r ∈ l -> p r = true -> 0 < sql_count p l.
Proof.
  intros Hin Hp. unfold sql_count.
  assert (Hf : r ∈ List.filter p l).
  { apply list_elem_of_In, filter_In. split; [now apply list_elem_of_In | exact Hp]. }
  destruct (List.filter p l); [inversion Hf | simpl; lia].
Qed.

Lemma sql_count_zero p l : sql_count p l = 0 -> Forall (fun r => p r = false) l.
Proof.
  intros H. apply Forall_forall. intros r Hr.
  destruct (p r) eqn:E; [| reflexivity].
  pose proof (sql_count_pos p l r Hr E). lia.
Qed.

Lemma query_stats_labelled s d r :
  r ∈ rows d -> is_labelled r = true -> exists e, query_stats s d = Raise e.
Proof.
  intros Hin Hl. unfold query_stats.
  destruct (db_error s) as [e |]; [now exists e |].
  pose proof (sql_count_pos is_labelled (rows d) r Hin Hl) as Hpos.
  apply Z.ltb_lt in Hpos. rewrite Hpos. eauto.
Qed.

Lemma query_stats_ok s d st :
  query_stats s d = Ok st ->
  db_error s = None /\
  sql_count is_labelled (rows d) = 0 /\
  st = {| total_scans := sql_count (fun _ => true) (rows d);
          fractures := sql_count (fun r => String.eqb (label r) "Fractured") (rows d);
          avg_latency :=
            match sql_avg (List.map inference_time (rows d)) with
            | Some a => Some (F64.of_float a)
            | None => None
            end;
          model_accuracy := None;
          labelled_count := 0 |}.
Proof.
  unfold query_stats. destruct (db_error s); [discriminate |].
  pose proof (sql_count_nonneg is_labelled (rows d)) as Hn.
  destruct (Z.ltb_spec 0 (sql_count is_labelled (rows d))) as [Hpos | Hz];
    [discriminate |].
  assert (H0 : sql_count is_labelled (rows d) = 0) by lia.
  rewrite H0. intros [= <-]. auto.
Qed.

(** C8: on an empty table [query_stats] returns 0 scans, 0 fractures, no
    average latency, no accuracy and 0 labelled rows, and whenever it
    returns, the accuracy is [None] and the labelled count is 0. But no
    accuracy is ever returned: as soon as one row carries a true label the
    call of line 119 raises, [query_stats] raises with it and
    [/api/stats] answers 500. *)
Theorem stats_raise_on_labelled_rows :
  (forall s n,
     db_error s = None ->
     query_stats s {| rows := []; next_id := n |} =
     Ok {| total_scans := 0; fractures := 0; avg_latency := None;
           model_accuracy := None; labelled_count := 0 |}) /\
  (forall s d st,
     query_stats s d = Ok st ->
     model_accuracy st = None /\ labelled_count st = 0 /\
     Forall (fun r => true_label r = None) (rows d)) /\
  (forall s d r,
     r ∈ rows d -> true_label r <> None ->
     exists e, query_stats s d = Raise e) /\
  (forall env w r,
     r ∈ rows (db w) -> true_label r <> None ->
     api_stats env w = (500, StatsError "Failed to fetch stats")).
Proof.
  assert (Hlab : forall r, true_label r <> None -> is_labelled r = true).
  { intros r H. unfold is_labelled. now destruct (true_label r). }
  split; [| split; [| split]].
  - intros s n He. unfold query_stats. now rewrite He.
  - intros s d st H. apply query_stats_ok in H as (_ & H0 & ->).
    split; [reflexivity |]. split; [reflexivity |].
    apply sql_count_zero in H0. eapply Forall_impl; [exact H0 |].
    intros r. unfold is_labelled. now destruct (true_label r).
  - intros s d r Hin Hl. apply (query_stats_labelled s d r Hin). now apply Hlab.
  - intros env w r Hin Hl. unfold api_stats.
    destruct (query_stats_labelled (session env) (db w) r Hin (Hlab r Hl)) as [e ->].
    reflexivity.
Qed.

(** A table of two rows, the second labelled "Fractured" and carrying the
    true label "Fractured": the accuracy would be 100, and the statistics
    request fails. *)
Lemma stats_raise_on_labelled_rows_witness :
  (exists e, query_stats Sample.healthy Sample.two_rows = Raise e) /\
  api_stats Sample.env {| fs := ∅; db := Sample.two_rows |} =
    (500, StatsError "Failed to fetch stats").
Proof.
  destruct stats_raise_on_labelled_rows as (_ & _ & Hq & Ha).
  assert (Hin : Sample.row 2 "A260101120001" "Fractured" (Some "Fractured")
                  ∈ rows Sample.two_rows).
  { apply list_elem_of_In. simpl. auto. }
  split.
  - apply (Hq _ _ _ Hin). discriminate.
  - apply (Ha Sample.env {| fs := ∅; db := Sample.two_rows |} _ Hin). discriminate.
Defined.
End Stats.

(** ** Stripping *)

Section Blank.
Import PyStr.
Variable p : ascii -> bool.

Lemma lstrip_by_all (s : string) :
forallb p (list_ascii_of_string s) = true -> lstrip_by p s = "".
Proof.
induction s as [| c s IH]; simpl; [reflexivity |].
intros H. apply andb_true_iff in H as [Hc Hs]. rewrite Hc. now apply IH.
Qed.

Lemma lstrip_by_head (s : string) (c : ascii) (t : string) :
lstrip_by p s = String c t -> p c = false.
Proof.
induction s as [| d s IH]; simpl; [discriminate |].
destruct (p d) eqn:Hd; [exact IH |]. intros [= -> _]. exact Hd.
Qed.

Lemma lstrip_by_empty (s : string) :
lstrip_by p s = "" -> forallb p (list_ascii_of_string s) = true.
Proof.
induction s as [| c s IH]; simpl; [reflexivity |].
destruct (p c); [exact IH | discriminate].
Qed.

Lemma rstrip_by_empty (c : ascii) (t : string) :
rstrip_by p (String c t) = "" -> p c = true.
Proof.
simpl. destruct (rstrip_by p t); [| discriminate].
destruct (p c); [reflexivity | discriminate].
Qed.

Lemma strip_by_empty_iff (s : string) :
strip_by p s = "" <-> forallb p (list_ascii_of_string s) = true.
Proof.
unfold strip_by. split.
- intros H. destruct (lstrip_by p s) as [| c t] eqn:E.
  + now apply lstrip_by_empty.
  + apply rstrip_by_empty in H. apply lstrip_by_head in E. congruence.
- intros H. now rewrite (lstrip_by_all s H).
Qed.
End Blank.

(** ** Reading the limit *)

Section IntLiteral.
Import PyStr.













End IntLiteral.

Section Recent.
Import Storage.

Lemma insert_desc_perm r l : Permutation (insert_desc r l) (r :: l).
Proof.
  induction l as [| x l IH]; simpl; [reflexivity |].
  destruct (id x <=? id r); [reflexivity |].
  rewrite IH. apply perm_swap.
Qed.

Lemma order_by_id_desc_perm l : Permutation (order_by_id_desc l) l.
Proof.
  induction l as [| x l IH]; simpl; [reflexivity |].
  rewrite insert_desc_perm. now constructor.
Qed.





Lemma insert_desc_oldest r l :
  Forall (fun y => id r < id y) l -> insert_desc r l = (l ++ [r])%list.
Proof.
  induction 1 as [| y l Hy Hl IH]; simpl; [reflexivity |].
  destruct (Z.leb_spec (id y) (id r)); [lia |]. now rewrite IH.
Qed.

(** On a table whose keys grow with insertion, descending key order is
    reverse insertion order. *)
Lemma order_by_id_desc_rev l :
  StronglySorted Z.lt (List.map id l) -> order_by_id_desc l = List.rev l.
Proof.
  induction l as [| x l IH]; intros Hs; simpl; [reflexivity |].
  simpl in Hs. pose proof (StronglySorted_inv Hs) as [Hs' Hx].
  rewrite (IH Hs'). apply insert_desc_oldest.
  rewrite List.Forall_forall in *. intros y Hy.
  apply Hx. apply List.in_map. now apply List.in_rev.
Qed.




(** Values of [n] that [int] refuses, and one it reads: a fraction, a
    word, an empty value and a separator character around the digits give
    the 500 answer; digits grouped by an underscore are read. *)
Example recent_limit_samples :
  api_recent Sample.env (Sample.get {[ "n" := "2.5" ]}) Sample.world = recent_failure /\
  api_recent Sample.env (Sample.get {[ "n" := "ten" ]}) Sample.world = recent_failure /\
  api_recent Sample.env (Sample.get {[ "n" := "" ]}) Sample.world = recent_failure /\
  api_recent Sample.env
    (Sample.get {[ "n" := String (ascii_of_nat 28) "5" ]}) Sample.world =
    recent_failure /\
  api_recent Sample.env (Sample.get {[ "n" := "-5" ]}) Sample.world = recent_failure /\
  recent_limit (Sample.get {[ "n" := " +1_0 " ]}) = Ok 10.
Proof. vm_compute. repeat split. Qed.
End Recent.

(** ** The report *)

Lemma resolve_image_unfold (cfg : Config) (disk : gmap string Os.Blob) (p : string) :
  p <> "" ->
  resolve_image cfg disk (Some p) =
  let candidate := PyStr.lstrip_by (Ascii.eqb "/") p in
  let candidate2 := Os.path_join (UPLOAD_DIR cfg) (Os.basename candidate) in
  if Os.path_exists disk candidate then Some candidate
  else if Os.path_exists disk candidate2 then Some candidate2
  else None.
Proof. intros H. destruct p; [congruence | reflexivity]. Qed.

(** C9: [download_report] always answers 200 with a one-page attachment
    [xray_report.pdf] of type [application/pdf]. The page has no image when
    the image path does not resolve (neither the path without its leading
    slashes nor its base name under the upload directory exists) or when
    embedding raises; otherwise it shows the resolved image. *)
Theorem report_is_always_one_page (cfg : Config) (env : Env) (req : Request) (w : World) :
  let data := if String.eqb (method req) "POST" then form req else args req in
  let use_path := resolve_image cfg (fs w) (data !! "image_path") in
  exists page,
    download_report cfg env req w =
    {| status := 200;
       body := SendFile [page] "xray_report.pdf" "application/pdf" true |} /\
    (use_path = None -> has_image page = false) /\
    (image_reader_fails env = true -> has_image page = false) /\
    (forall p, use_path = Some p -> p <> "" -> image_reader_fails env = false ->
               In (DrawImage p 40 380 300 300) page) /\
    (forall p, data !! "image_path" = Some p ->
       Os.path_exists (fs w) (PyStr.lstrip_by (Ascii.eqb "/") p) = false ->
       Os.path_exists (fs w)
         (Os.path_join (UPLOAD_DIR cfg)
            (Os.basename (PyStr.lstrip_by (Ascii.eqb "/") p))) = false ->
       use_path = None).
Proof.
  intros data use_path. unfold download_report. fold data. fold use_path.
  assert (Hres : forall p, data !! "image_path" = Some p ->
       Os.path_exists (fs w) (PyStr.lstrip_by (Ascii.eqb "/") p) = false ->
       Os.path_exists (fs w)
         (Os.path_join (UPLOAD_DIR cfg)
            (Os.basename (PyStr.lstrip_by (Ascii.eqb "/") p))) = false ->
       use_path = None).
  { intros p Hp H1 H2. unfold use_path. rewrite Hp.
    destruct (string_dec p "") as [-> | Hne]; [reflexivity |].
    rewrite (resolve_image_unfold cfg (fs w) p Hne). cbv zeta. now rewrite H1, H2. }
  destruct use_path as [[| c p] |] eqn:Hu.
  - eexists. split; [reflexivity |]. split; [discriminate |].
    split; [reflexivity |]. split; [| exact Hres].
    intros p [= <-] Hne. congruence.
  - destruct (image_reader_fails env) eqn:Hf.
    + eexists. split; [reflexivity |]. split; [discriminate |].
      split; [reflexivity |]. split; [| exact Hres]. discriminate.
    + eexists. split; [reflexivity |]. split; [discriminate |].
      split; [discriminate |]. split; [| exact Hres].
      intros q [= <-] _ _. simpl. tauto.
  - eexists. split; [reflexivity |]. split; [reflexivity |].
    split; [reflexivity |]. split; [| exact Hres]. discriminate.
Qed.

(** A report for an image path that is not on disk. *)
Lemma report_is_always_one_page_witness :
  exists page,
    download_report Sample.demo_cfg Sample.env
      (Sample.get {[ "image_path" := "/static/uploads/missing.png" ]}) Sample.world =
    {| status := 200;
       body := SendFile [page] "xray_report.pdf" "application/pdf" true |} /\
    has_image page = false.
Proof.
  destruct (report_is_always_one_page Sample.demo_cfg Sample.env
              (Sample.get {[ "image_path" := "/static/uploads/missing.png" ]})
              Sample.world) as (page & Hd & Hnone & _).
  exists page. split; [exact Hd |]. apply Hnone. vm_compute. reflexivity.
Defined.

(** ** Scenarios of the specification *)

(** Uploading [sample.webp] for Jane Doe in demo mode: the answer names a
    label, an image path ending in [.png] and the patient, and a row with
    the answered scan id is stored. *)
Example scenario_sample_webp :
  let out := predict Sample.demo_cfg Sample.env
               (Sample.upload "sample.webp" Sample.json_headers) Sample.world in
  status (fst out) = 200 /\
  response_label (fst out) = Some (JStr "Normal") /\
  response_field "image_path" "image_path" (fst out)
  = Some (JStr "/static/uploads/20260101120000000000_sample.png") /\
  response_field "patient_name" "patient_name" (fst out) = Some (JStr "Jane Doe") /\
  response_field "id" "id" (fst out) = Some (JStr "A260101120000") /\
  List.map Storage.scan_id (Storage.rows (db (snd out))) = ["A260101120000"].
Proof. vm_compute. repeat split. Qed.

(** Posting without a file part, negotiating JSON: 400 and no row. *)
Example scenario_no_file_json :
  let out := predict Sample.demo_cfg Sample.env
               (Sample.no_file Sample.json_headers) Sample.world in
  status (fst out) = 400 /\
  response_error (fst out) = Some (JStr "No file uploaded") /\
  Storage.rows (db (snd out)) = [].
Proof. vm_compute. repeat split. Qed.

(** Two upserts with one scan id leave one row, holding the second write. *)
Example scenario_colliding_scan_ids :
  List.map (fun r => (Storage.id r, Storage.scan_id r, Storage.patient_name r))
    (Storage.rows (Table.run [Sample.upsert "A260101120000" "Jane Doe";
                              Sample.upsert "A260101120000" "John Roe"]
                     Storage.empty_db))
  = [(1, "A260101120000", "John Roe")].
Proof. vm_compute. reflexivity. Qed.

(** File names and the extension test. *)
Example scenario_extensions :
  allowed_file "scan.PNG" = true /\ allowed_file "a.b.JpEg" = true /\
  allowed_file "scan.tar.gz" = false /\ allowed_file "png" = false /\
  allowed_file "scan." = false.
Proof. vm_compute. repeat split. Qed.

(* ===================================================================== *)
(** * Further properties of the handlers and the storage helpers *)
(* ===================================================================== *)

(** ** Blank patient names *)

(** X1: an upload whose file part has an empty name is refused with
    "No file selected"; with a named file, a missing [patient_name] field or
    one made of white space only is refused with "Patient name is
    required.", whatever the file's extension. Nothing is saved or stored. *)
Theorem incomplete_form_is_rejected
        (cfg : Config) (env : Env) (req : Request) (w : World) (file : FileStorage) :
  files req !! "file" = Some file ->
  (filename file = "" ->
   predict cfg env req w = (error_response req "No file selected" None 400, w)) /\
  (filename file <> "" ->
   form req !! "patient_name" = None ->
   predict cfg env req w = (error_response req "Patient name is required." None 400, w)) /\
  (forall name,
     filename file <> "" ->
     form req !! "patient_name" = Some name ->
     forallb PyStr.is_space (list_ascii_of_string name) = true ->
     predict cfg env req w = (error_response req "Patient name is required." None 400, w)).
Proof.
  intros Hf. unfold predict, predict_steps. rewrite Hf.
  split; [| split].
  - intros ->. cbn. now destruct w.
  - intros Hn Hp. apply String.eqb_neq in Hn. rewrite Hn.
    unfold dict_get. rewrite Hp. cbn. now destruct w.
  - intros name Hn Hp Hs. apply String.eqb_neq in Hn. rewrite Hn.
    unfold dict_get. rewrite Hp.
    assert (Hstrip : PyStr.strip name = "") by now apply strip_by_empty_iff.
    rewrite Hstrip. cbn. now destruct w.
Qed.

(** A blank patient name with a disallowed file. *)
Lemma incomplete_form_is_rejected_witness :
  predict Sample.demo_cfg Sample.env
    (Fixture.upload_for "hand.exe" "  " Sample.json_headers) Sample.world =
  ({| status := 400; body := Json [("error", JStr "Patient name is required.")] |},
   Sample.world).
Proof.
  refine (proj2 (proj2 (incomplete_form_is_rejected Sample.demo_cfg Sample.env
            (Fixture.upload_for "hand.exe" "  " Sample.json_headers) Sample.world
            {| filename := "hand.exe"; content := "PNG...." |} _)) "  " _ _ _).
  - vm_compute. reflexivity.
  - discriminate.
  - vm_compute. reflexivity.
  - reflexivity.
Defined.

(** ** Status codes *)

Lemma infer_and_label_unhandled cfg env req patient saved path (f : gmap string Os.Blob) e f' :
  infer_and_label cfg env req patient saved path f = Unhandled e f' ->
  f' = f /\ (TF_AVAILABLE cfg = false \/ model cfg = None) /\
  predict_from_model cfg env None = Raise e.
Proof.
  unfold infer_and_label.
  destruct (TF_AVAILABLE cfg) eqn:Htf; cbn [andb].
  - destruct (model cfg) as [m |] eqn:Hm.
    + rewrite bool_decide_eq_true_2 by eauto.
      destruct (preprocess_error env); [discriminate |].
      destruct (predict_from_model cfg env (f !! path)); discriminate.
    + rewrite bool_decide_eq_false_2 by (intros [? ?]; discriminate).
      destruct (predict_from_model cfg env None) eqn:E; [discriminate |].
      intros [= <- <-]. auto.
  - destruct (predict_from_model cfg env None) eqn:E; [discriminate |].
    intros [= <- <-]. auto.
Qed.

Lemma predict_steps_returned_code cfg env req (f : gmap string Os.Blob) r f' :
  predict_steps cfg env req f = Returned r f' ->
  exists msg details code,
    r = error_response req msg details code /\ (code = 400 \/ code = 500).
Proof.
  unfold predict_steps.
  destruct (files req !! "file") as [file |]; [| intros [= <- _]; eauto 7].
  destruct (String.eqb (filename file) ""); [intros [= <- _]; eauto 7 |].
  destruct (String.eqb (PyStr.strip _) ""); [intros [= <- _]; eauto 7 |].
  destruct (negb (allowed_file _)); [intros [= <- _]; eauto 7 |].
  destruct (save_error env); [discriminate |].
  destruct (String.eqb (file_ext _) "webp").
  - destruct (convert_error env); [intros [= <- _]; eauto 7 |].
    intros H. apply infer_and_label_returned in H as (_ & e & ->). eauto 7.
  - intros H. apply infer_and_label_returned in H as (_ & e & ->). eauto 7.
Qed.

(** X2: a client that does not ask for JSON always gets status 200 from
    [predict], also for errors. A JSON client gets 200, 400 or 500, and 200
    exactly when the run reached the persistence step, which is exactly
    when the body has no error field. *)
Theorem status_codes_of_predict (cfg : Config) (env : Env) (req : Request) (w : World) :
  let r := fst (predict cfg env req w) in
  (request_wants_json req = false -> status r = 200) /\
  (request_wants_json req = true ->
   (status r = 200 \/ status r = 400 \/ status r = 500) /\
   (status r = 200 <-> exists c f', predict_steps cfg env req (fs w) = Reached c f') /\
   (status r = 200 <-> response_error r = None)).
Proof.
  cbv zeta. unfold predict.
  destruct (predict_steps cfg env req (fs w)) as [r f' | e f' | c f'] eqn:E; cbn [fst].
  - apply predict_steps_returned_code in E as (msg & d & code & -> & Hcode).
    rewrite error_response_status. split.
    + now intros ->.
    + intros Hj. rewrite Hj. unfold response_error, response_field, error_response.
      rewrite Hj. cbn.
      split; [destruct Hcode; auto |].
      split; (split; [destruct Hcode; lia |]).
      * intros (c & f'' & Hc). discriminate.
      * discriminate.
  - rewrite error_response_status. split.
    + now intros ->.
    + intros Hj. rewrite Hj. unfold response_error, response_field, error_response.
      rewrite Hj. cbn.
      split; [auto |]. split; (split; [lia |]).
      * intros (c & f'' & Hc). discriminate.
      * discriminate.
  - rewrite success_response_status, success_response_no_error. split; [reflexivity |].
    intros _. split; [auto |]. split; (split; [| reflexivity]); eauto.
Qed.

(** A browser upload while the model raises. *)
Lemma status_codes_of_predict_witness :
  status (fst (predict (Fixture.cfg_with Fixture.broken_model) Sample.env
                 (Sample.upload "hand.png" ∅) Sample.world)) = 200.
Proof.
  refine (proj1 (status_codes_of_predict (Fixture.cfg_with Fixture.broken_model)
                   Sample.env (Sample.upload "hand.png" ∅) Sample.world) _).
  vm_compute. reflexivity.
Defined.

(** ** Failures after validation *)

(** X3: with a loaded model and a validated upload that is not WEBP, a
    failure of preprocessing or of the model on the saved file gives
    "Prediction error" with the exception text (500 for JSON); the table is
    unchanged and the saved upload stays on disk. *)
Theorem inference_failure_writes_no_row
        (cfg : Config) (env : Env) (req : Request) (w : World)
        (file : FileStorage) (m : Model) (e : string) :
  TF_AVAILABLE cfg = true -> model cfg = Some m ->
  passes_validation req file -> save_error env = None ->
  file_ext (Werkzeug.secure_filename (filename file)) <> "webp" ->
  let filepath := Os.path_join (UPLOAD_DIR cfg) (upload_name env file) in
  (preprocess_error env = Some e \/
   (preprocess_error env = None /\ m (Some (Os.Uploaded (content file))) = Raise e)) ->
  predict cfg env req w =
  (error_response req "Prediction error" (Some e) 500,
   {| fs := <[filepath := Os.Uploaded (content file)]> (fs w); db := db w |}).
Proof.
  intros Htf Hm Hv Hsave Hext filepath Hfail.
  unfold predict. rewrite (predict_steps_validated cfg env req (fs w) file Hv).
  cbv zeta. rewrite Hsave. apply String.eqb_neq in Hext. rewrite Hext.
  fold filepath. unfold infer_and_label, predict_from_model.
  rewrite Htf, Hm. rewrite bool_decide_eq_true_2 by eauto. cbn [andb].
  destruct Hfail as [Hp | [Hp Hr]]; rewrite Hp; [reflexivity |].
  rewrite lookup_insert_eq. now rewrite Hr.
Qed.

(** A JSON upload while the model raises. *)
Lemma inference_failure_writes_no_row_witness :
  predict (Fixture.cfg_with Fixture.broken_model) Sample.env
    (Fixture.upload_for "hand.png" "Jane Doe" Sample.json_headers) Sample.world =
  ({| status := 500;
      body := Json [("error", JStr "Prediction error");
                    ("details", JStr "Graph execution error")] |},
   {| fs := {[ "/srv/app/static/uploads/20260101120000000000_hand.png"
               := Os.Uploaded "PNG...." ]};
      db := Storage.empty_db |}).
Proof.
  refine (inference_failure_writes_no_row (Fixture.cfg_with Fixture.broken_model)
            Sample.env (Fixture.upload_for "hand.png" "Jane Doe" Sample.json_headers)
            Sample.world {| filename := "hand.png"; content := "PNG...." |}
            Fixture.broken_model "Graph execution error" _ _ _ _ _ _).
  - reflexivity.
  - reflexivity.
  - repeat split; vm_compute; try reflexivity; discriminate.
  - reflexivity.
  - vm_compute. discriminate.
  - right. split; reflexivity.
Defined.

(** X4: when [file.save] raises for a validated upload, the outer handler
    answers "Unhandled server error" with the exception text (500 for JSON,
    200 for the page) and the table does not change. On disk every path
    but the destination of the upload is as before; the destination holds
    what the failed save had written, also over an earlier file of that
    name, and is untouched only if the save failed before opening it. *)
Theorem save_failure_is_unhandled
        (cfg : Config) (env : Env) (req : Request) (w : World)
        (file : FileStorage) (e : string) :
  passes_validation req file -> save_error env = Some e ->
  let filepath := Os.path_join (UPLOAD_DIR cfg) (upload_name env file) in
  let r := predict cfg env req w in
  fst r = error_response req "Unhandled server error" (Some e) 500 /\
  status (fst r) = (if request_wants_json req then 500 else 200) /\
  db (snd r) = db w /\
  (forall k, k <> filepath -> fs (snd r) !! k = fs w !! k) /\
  (forall written, save_partial env = Some written ->
     fs (snd r) !! filepath = Some (Os.Uploaded written)) /\
  (save_partial env = None -> snd r = w).
Proof.
  intros Hv Hsave filepath r.
  assert (Hp : r =
               (error_response req "Unhandled server error" (Some e) 500,
                {| fs := match save_partial env with
                         | Some written => <[filepath := Os.Uploaded written]> (fs w)
                         | None => fs w
                         end;
                   db := db w |})).
  { unfold r, predict. rewrite (predict_steps_validated cfg env req (fs w) file Hv).
    cbv zeta. now rewrite Hsave. }
  rewrite Hp. cbn [fst snd fs db].
  split; [reflexivity |]. split; [apply error_response_status |].
  split; [reflexivity |]. split; [| split].
  - intros k Hk. destruct (save_partial env); [| reflexivity].
    now apply lookup_insert_ne.
  - intros written ->. apply lookup_insert_eq.
  - intros ->. now destruct w.
Qed.

(** A JSON upload on a disk that fills up after three bytes. *)
Lemma save_failure_is_unhandled_witness :
  fst (predict Sample.demo_cfg Fixture.env_disk_full
         (Fixture.upload_for "hand.png" "Jane Doe" Sample.json_headers) Sample.world) =
    {| status := 500;
       body := Json [("error", JStr "Unhandled server error");
                     ("details", JStr "No space left on device")] |} /\
  fs (snd (predict Sample.demo_cfg Fixture.env_disk_full
             (Fixture.upload_for "hand.png" "Jane Doe" Sample.json_headers)
             Sample.world))
    !! "/srv/app/static/uploads/20260101120000000000_hand.png" =
    Some (Os.Uploaded "PNG").
Proof.
  destruct (save_failure_is_unhandled Sample.demo_cfg Fixture.env_disk_full
            (Fixture.upload_for "hand.png" "Jane Doe" Sample.json_headers)
            Sample.world {| filename := "hand.png"; content := "PNG...." |}
            "No space left on device") as (H1 & _ & _ & _ & H5 & _).
  - repeat split; vm_compute; try reflexivity; discriminate.
  - reflexivity.
  - split; [exact H1 | exact (H5 "PNG" eq_refl)].
Defined.

(** ** Start-up *)

Lemma loaded_model_some (st : Startup) (m : Model) :
  loaded_model st = Some m <->
  tf_imports_ok st = true /\ model_path_exists st = true /\ load_model st = Ok m.
Proof.
  unfold loaded_model.
  destruct (tf_imports_ok st), (model_path_exists st), (load_model st) as [m' | e];
    split; try discriminate; try (intros (? & ? & ?); discriminate).
  - intros [= ->]. auto.
  - intros (_ & _ & [= ->]). reflexivity.
Qed.

Lemma predict_steps_unhandled cfg env req (f : gmap string Os.Blob) e f' :
  predict_steps cfg env req f = Unhandled e f' ->
  save_error env = Some e \/
  ((TF_AVAILABLE cfg = false \/ model cfg = None) /\
   predict_from_model cfg env None = Raise e).
Proof.
  unfold predict_steps.
  destruct (files req !! "file") as [file |]; [| discriminate].
  destruct (String.eqb (filename file) ""); [discriminate |].
  destruct (String.eqb (PyStr.strip _) ""); [discriminate |].
  destruct (negb (allowed_file _)); [discriminate |].
  destruct (save_error env) as [e' |]; [intros [= -> _]; auto |].
  destruct (String.eqb (file_ext _) "webp").
  - destruct (convert_error env); [discriminate |].
    intros H. apply infer_and_label_unhandled in H as (_ & H1 & H2). auto.
  - intros H. apply infer_and_label_unhandled in H as (_ & H1 & H2). auto.
Qed.

(** X5: after start-up a model is present only if TensorFlow imported,
    the model file exists and loading succeeded, and exactly then; a
    configuration without TensorFlow has no model, so the branch of
    [predict] taken without a usable model never calls one: for a sample
    in [0, 1) it gets a drawn value in [0.75, 0.95], whatever the input. *)
Theorem startup_configuration (root : string) (st : Startup) :
  let cfg := startup_config root st in
  (forall m, model cfg = Some m ->
     TF_AVAILABLE cfg = true /\ model_path_exists st = true /\ load_model st = Ok m) /\
  (forall m, tf_imports_ok st = true -> model_path_exists st = true ->
     load_model st = Ok m -> model cfg = Some m) /\
  (TF_AVAILABLE cfg = false -> model cfg = None) /\
  (forall env input,
     TF_AVAILABLE cfg && bool_decide (is_Some (model cfg)) = false ->
     (0 <= random_sample env < 1)%Q ->
     exists p, predict_from_model cfg env input = Ok p /\
               (75 # 100 <= p <= 95 # 100)%Q).
Proof.
  cbv zeta.
  assert (Hnone : tf_imports_ok st = false -> loaded_model st = None).
  { intros H. unfold loaded_model. now rewrite H. }
  split; [| split; [| split]].
  - intros m Hm. cbn in Hm. apply loaded_model_some in Hm as (H1 & H2 & H3).
    cbn. auto.
  - intros m H1 H2 H3. cbn. apply loaded_model_some. auto.
  - cbn. exact Hnone.
  - intros env input Hno Hu.
    assert (Hm : model (startup_config root st) = None).
    { cbn in *. destruct (tf_imports_ok st) eqn:Htf; [| now apply Hnone].
      destruct (loaded_model st); [| reflexivity].
      rewrite bool_decide_eq_true_2 in Hno by eauto. discriminate. }
    destruct (demo_probability _ env Hm Hu input) as (p & Hp & Hlo & Hhi).
    exists p. split; [exact Hp |]. pose proof demo_upper_literal. split; lra.
Qed.

(** TensorFlow present, model file missing. *)
Lemma startup_configuration_witness :
  exists p,
    predict_from_model
      (startup_config "/srv/app"
         {| tf_imports_ok := true; model_path_exists := false;
            load_model := Ok Fixture.fractured_model |})
      Sample.env None = Ok p /\
    (75 # 100 <= p <= 95 # 100)%Q.
Proof.
  refine (proj2 (proj2 (proj2 (startup_configuration "/srv/app"
            {| tf_imports_ok := true; model_path_exists := false;
               load_model := Ok Fixture.fractured_model |}))) Sample.env None _ _).
  - reflexivity.
  - simpl. lra.
Defined.

(** ** Writing and reading back a prediction *)

Section RoundTrip.
Import Storage.

(** The row an upsert writes when its [scan_id] is new. *)
Lemma call_fresh_row (d : DB) (u : Table.Upsert) :
db_error (Table.u_session u) = None ->
~ In (Table.u_scan_id u) (List.map scan_id (rows d)) ->
Table.call d u =
Ok {| rows := rows d ++
              [{| id := next_id d; scan_id := Table.u_scan_id u;
                  patient_name := Table.u_patient_name u;
                  label := Table.u_label u;
                  confidence := Table.u_confidence u;
                  inference_time := Table.u_inference_time u;
                  image_path := Table.u_image_path u;
                  timestamp := current_timestamp (Table.u_session u);
                  true_label := None |}];
      next_id := next_id d + 1 |}.
Proof.
intros He Hin. unfold Table.call, insert_prediction. rewrite He.
destruct (filter_by_scan_id (Table.u_scan_id u) (rows d)) as [| obj t] eqn:F;
  [reflexivity |].
exfalso. apply Hin.
assert (Ho : In obj (filter_by_scan_id (Table.u_scan_id u) (rows d))).
{ rewrite F. now left. }
apply filter_by_scan_id_In in Ho as [Ho <-]. now apply List.in_map.
Qed.

Lemma filter_by_scan_id_app sid (l1 l2 : list Prediction) :
filter_by_scan_id sid (l1 ++ l2) =
(filter_by_scan_id sid l1 ++ filter_by_scan_id sid l2)%list.
Proof. unfold filter_by_scan_id. apply List.filter_app. Qed.

Lemma filter_by_scan_id_absent sid (l : list Prediction) :
~ In sid (List.map scan_id l) -> filter_by_scan_id sid l = [].
Proof.
intros Hin. destruct (filter_by_scan_id sid l) as [| r t] eqn:F; [reflexivity |].
exfalso. apply Hin.
assert (Hr : In r (filter_by_scan_id sid l)) by (rewrite F; now left).
apply filter_by_scan_id_In in Hr as [Hr <-]. now apply List.in_map.
Qed.

Lemma filter_by_scan_id_insert_other sid (l : list Prediction) i old new :
l !! i = Some old -> scan_id old <> sid -> scan_id new <> sid ->
filter_by_scan_id sid (<[i := new]> l) = filter_by_scan_id sid l.
Proof.
intros Hi Ho Hn. apply String.eqb_neq in Ho, Hn.
revert i Hi. induction l as [| x l IH]; intros [| i] Hi; simpl in *;
  try discriminate.
- injection Hi as ->. unfold filter_by_scan_id. simpl. now rewrite Ho, Hn.
- unfold filter_by_scan_id in *. simpl. now rewrite (IH i Hi).
Qed.

Lemma filter_by_scan_id_single sid (l : list Prediction) r :
NoDup (List.map scan_id l) -> In r l -> scan_id r = sid ->
filter_by_scan_id sid l = [r].
Proof.
intros Hnd Hin Hsid.
assert (Hr : In r (filter_by_scan_id sid l)) by now apply filter_by_scan_id_In.
pose proof (unique_filter sid l Hnd) as Hlen.
destruct (filter_by_scan_id sid l) as [| a [| b t]]; simpl in *;
  [contradiction | | lia].
destruct Hr as [-> | []]. reflexivity.
Qed.

(** What one upsert does to the table and to later lookups. *)
Lemma call_round_trip (d : DB) (u : Table.Upsert) :
Table.ok d -> db_error (Table.u_session u) = None ->
exists d' r,
  Table.call d u = Ok d' /\
  Table.ok d' /\
  filter_by_scan_id (Table.u_scan_id u) (rows d') = [r] /\
  (patient_name r = Table.u_patient_name u /\ label r = Table.u_label u /\
   confidence r = Table.u_confidence u /\
   inference_time r = Table.u_inference_time u /\
   image_path r = Table.u_image_path u) /\
  (forall sid, sid <> Table.u_scan_id u ->
     filter_by_scan_id sid (rows d') = filter_by_scan_id sid (rows d)) /\
  (In (Table.u_scan_id u) (List.map scan_id (rows d)) ->
     length (rows d') = length (rows d) /\ next_id d' = next_id d) /\
  (~ In (Table.u_scan_id u) (List.map scan_id (rows d)) ->
     length (rows d') = S (length (rows d)) /\ id r = next_id d /\
     true_label r = None).
Proof.
intros Hok He.
pose proof (after_ok d u Hok) as Hok'. unfold Table.after in Hok'.
destruct (List.in_dec string_dec (Table.u_scan_id u) (List.map scan_id (rows d)))
  as [Hin | Hin].
- destruct (call_existing d u Hok He Hin) as (i & old & Hi & Hsid & Hc).
  rewrite Hc in Hok'. eexists. exists (Table.assigned u old).
  split; [exact Hc |]. split; [exact Hok' |]. cbn [rows next_id].
  split; [| split; [| split; [| split]]].
  + apply filter_by_scan_id_single.
    * now destruct Hok'.
    * apply list_elem_of_In, list_elem_of_lookup. exists i.
      apply list_lookup_insert_eq. now apply lookup_lt_Some in Hi.
    * exact Hsid.
  + repeat split.
  + intros sid Hne. apply (filter_by_scan_id_insert_other sid _ i old); auto.
    * congruence.
    * cbn. congruence.
  + intros _. split; [apply length_insert | reflexivity].
  + intros Hnot. contradiction.
- rewrite (call_fresh_row d u He Hin) in Hok'. eexists. eexists.
  split; [apply (call_fresh_row d u He Hin) |]. split; [exact Hok' |].
  cbn [rows next_id].
  split; [| split; [| split; [| split]]].
  + rewrite filter_by_scan_id_app, (filter_by_scan_id_absent _ _ Hin).
    unfold filter_by_scan_id. simpl. now rewrite String.eqb_refl.
  + repeat split.
  + intros sid Hne. rewrite filter_by_scan_id_app.
    unfold filter_by_scan_id at 2. simpl.
    apply not_eq_sym, String.eqb_neq in Hne. cbn [scan_id]. rewrite Hne.
    apply List.app_nil_r.
  + intros Hyes. contradiction.
  + intros _. split; [| split; reflexivity].
    rewrite List.length_app. simpl. lia.
Qed.

(** X6: on a well-formed table with a healthy session, [insert_prediction]
  succeeds and keeps the table well formed; looking the [scan_id] up
  afterwards gives exactly one row, holding the supplied values; rows of
  other scan ids are untouched; the row count is unchanged if the id was
  present and grows by one otherwise (new key, no reference label). *)
Theorem upsert_then_lookup (d : DB) (u : Table.Upsert) :
Table.ok d -> db_error (Table.u_session u) = None ->
exists d' r,
  Table.call d u = Ok d' /\
  Table.ok d' /\
  filter_by_scan_id (Table.u_scan_id u) (rows d') = [r] /\
  (patient_name r = Table.u_patient_name u /\ label r = Table.u_label u /\
   confidence r = Table.u_confidence u /\
   inference_time r = Table.u_inference_time u /\
   image_path r = Table.u_image_path u) /\
  (forall sid, sid <> Table.u_scan_id u ->
     filter_by_scan_id sid (rows d') = filter_by_scan_id sid (rows d)) /\
  (In (Table.u_scan_id u) (List.map scan_id (rows d)) ->
     length (rows d') = length (rows d) /\ next_id d' = next_id d) /\
  (~ In (Table.u_scan_id u) (List.map scan_id (rows d)) ->
     length (rows d') = S (length (rows d)) /\ id r = next_id d /\
     true_label r = None).
Proof. exact (call_round_trip d u). Qed.

(** A third scan on a table of two. *)
Lemma upsert_then_lookup_witness :
exists d',
  Table.call Sample.two_rows (Sample.upsert "A260101120002" "John Roe") = Ok d' /\
  List.map patient_name (filter_by_scan_id "A260101120002" (rows d')) = ["John Roe"].
Proof.
assert (Hok : Table.ok Sample.two_rows).
{ split; simpl.
  - repeat constructor.
  - repeat constructor.
  - apply NoDup_cons. split; [| apply NoDup_singleton].
    intros Hin. apply list_elem_of_singleton in Hin. discriminate Hin. }
destruct (upsert_then_lookup Sample.two_rows
            (Sample.upsert "A260101120002" "John Roe") Hok eq_refl)
  as (d' & r & Hc & _ & Hf & (Hp & _) & _).
exists d'. split; [exact Hc |].
change (filter_by_scan_id "A260101120002" (rows d') = [r]) in Hf.
rewrite Hf. simpl. now rewrite Hp.
Defined.

End RoundTrip.

(** ** What a successful prediction leaves behind *)

(** X7: a run of [predict] that reaches persistence under a healthy
    session stores exactly one row for its scan id ["A" + second-resolution
    time], holding the answered patient, label, confidence, inference time
    and image path. Other rows are untouched. If a row of that second
    existed it is overwritten (the count stays), else one row is added. *)
Theorem successful_prediction_is_stored
        (cfg : Config) (env : Env) (req : Request) (w : World)
        (c : Scan) (f' : gmap string Os.Blob) :
  Table.ok (db w) -> Storage.db_error (session env) = None ->
  predict_steps cfg env req (fs w) = Reached c f' ->
  let d' := db (snd (predict cfg env req w)) in
  Table.ok d' /\
  s_scan_id c = "A" +:+ now_scan env /\
  (exists r,
     Storage.filter_by_scan_id (s_scan_id c) (Storage.rows d') = [r] /\
     Storage.patient_name r = s_patient_name c /\
     Storage.label r = s_label c /\
     Storage.confidence r = s_confidence c /\
     Storage.inference_time r = s_inference_time c /\
     Storage.image_path r = s_image_path c) /\
  (forall sid, sid <> s_scan_id c ->
     Storage.filter_by_scan_id sid (Storage.rows d') =
     Storage.filter_by_scan_id sid (Storage.rows (db w))) /\
  (In (s_scan_id c) (List.map Storage.scan_id (Storage.rows (db w))) ->
   length (Storage.rows d') = length (Storage.rows (db w))) /\
  (~ In (s_scan_id c) (List.map Storage.scan_id (Storage.rows (db w))) ->
   length (Storage.rows d') = S (length (Storage.rows (db w)))).
Proof.
  intros Hok He Hsteps d'.
  set (u := {| Table.u_session := session env; Table.u_scan_id := s_scan_id c;
               Table.u_patient_name := s_patient_name c; Table.u_label := s_label c;
               Table.u_confidence := s_confidence c;
               Table.u_inference_time := s_inference_time c;
               Table.u_image_path := s_image_path c |}).
  destruct (call_round_trip (db w) u Hok He)
    as (d1 & r & Hc & Hok1 & Hf & (H1 & H2 & H3 & H4 & H5) & Hother & Hin & Hnin).
  assert (Hd : d' = d1).
  { unfold d', predict. rewrite Hsteps. cbn [snd db]. unfold persist.
    change (Storage.insert_prediction _ _ _ _ _ _ _ _) with (Table.call (db w) u).
    now rewrite Hc. }
  rewrite Hd. split; [exact Hok1 |]. split.
  - apply predict_steps_reached in Hsteps as (i & p & pt & sv & _ & ->). reflexivity.
  - split; [exists r; auto 10 |]. split; [exact Hother |].
    split; [intros H; now apply Hin | intros H; now apply Hnin].
Qed.

(** A prediction in the second of an existing row. *)
Lemma successful_prediction_is_stored_witness :
  length (Storage.rows (db (snd (predict Sample.demo_cfg Sample.env
             (Sample.upload "hand.png" Sample.json_headers)
             (Fixture.world_with Sample.two_rows))))) = 2%nat.
Proof.
  assert (Hok : Table.ok Sample.two_rows).
  { split; simpl.
    - repeat constructor.
    - repeat constructor.
    - apply NoDup_cons. split; [| apply NoDup_singleton].
      intros Hin. apply list_elem_of_singleton in Hin. discriminate Hin. }
  destruct (predict_steps Sample.demo_cfg Sample.env
              (Sample.upload "hand.png" Sample.json_headers)
              (fs (Fixture.world_with Sample.two_rows)))
    as [r f' | e f' | c f'] eqn:E.
  - vm_compute in E. discriminate E.
  - vm_compute in E. discriminate E.
  - destruct (successful_prediction_is_stored Sample.demo_cfg Sample.env
                (Sample.upload "hand.png" Sample.json_headers)
                (Fixture.world_with Sample.two_rows) c f' Hok eq_refl E)
      as (_ & Hsid & _ & _ & Hin & _).
    apply Hin. rewrite Hsid. simpl. now left.
Defined.

(** X8: [predict] changes at most two paths of the disk, the saved upload
    and its PNG under the upload directory; every other path keeps its
    content, and a request without a file part changes nothing. *)
Theorem predict_touches_only_its_files
        (cfg : Config) (env : Env) (req : Request) (fs0 : gmap string Os.Blob) :
  (files req !! "file" = None -> progress_fs (predict_steps cfg env req fs0) = fs0) /\
  (forall file p,
     files req !! "file" = Some file ->
     p <> Os.path_join (UPLOAD_DIR cfg) (upload_name env file) ->
     p <> Os.path_join (UPLOAD_DIR cfg) (png_name env file) ->
     progress_fs (predict_steps cfg env req fs0) !! p = fs0 !! p).
Proof.
  split.
  - intros H. unfold predict_steps. now rewrite H.
  - intros file p Hf Hp1 Hp2. unfold predict_steps. rewrite Hf.
    fold (upload_name env file). fold (png_name env file).
    destruct (String.eqb (filename file) ""); [reflexivity |].
    destruct (String.eqb (PyStr.strip _) ""); [reflexivity |].
    destruct (negb (allowed_file _)); [reflexivity |].
    destruct (save_error env).
    { cbn [progress_fs]. destruct (save_partial env); [| reflexivity].
      now rewrite lookup_insert_ne. }
    destruct (String.eqb (file_ext _) "webp").
    + destruct (convert_error env); cbn [progress_fs].
      * now rewrite lookup_insert_ne.
      * rewrite progress_fs_infer.
        destruct (remove_fails env).
        -- now rewrite !lookup_insert_ne.
        -- rewrite lookup_delete_ne by auto. now rewrite !lookup_insert_ne.
    + rewrite progress_fs_infer. now rewrite lookup_insert_ne.
Qed.

(** An earlier upload survives a WEBP upload. *)
Lemma predict_touches_only_its_files_witness :
  progress_fs (predict_steps Sample.demo_cfg Sample.env
                 (Sample.upload "hand.webp" Sample.json_headers) Fixture.disk)
    !! "/srv/app/static/uploads/old.png" = Some (Os.PngOf "old").
Proof.
  refine (proj2 (predict_touches_only_its_files Sample.demo_cfg Sample.env
            (Sample.upload "hand.webp" Sample.json_headers) Fixture.disk)
            {| filename := "hand.webp"; content := "RIFF....WEBP" |}
            "/srv/app/static/uploads/old.png" _ _ _).
  - vm_compute. reflexivity.
  - vm_compute. discriminate.
  - vm_compute. discriminate.
Defined.

(** X9: when [predict] reaches persistence, the answered image path is
    [/static/uploads/] followed by the saved name, and that name exists in
    the upload directory: as the PNG for a sanitized WEBP name, as the
    uploaded bytes otherwise. *)
Theorem answered_image_is_on_disk
        (cfg : Config) (env : Env) (req : Request) (fs0 : gmap string Os.Blob)
        (c : Scan) (f' : gmap string Os.Blob) :
  predict_steps cfg env req fs0 = Reached c f' ->
  exists file,
    files req !! "file" = Some file /\
    s_image_path c = "/static/uploads/" +:+ s_saved_name c /\
    f' !! Os.path_join (UPLOAD_DIR cfg) (s_saved_name c) =
    Some (if String.eqb (file_ext (Werkzeug.secure_filename (filename file))) "webp"
          then Os.PngOf (content file)
          else Os.Uploaded (content file)).
Proof.
  unfold predict_steps.
  destruct (files req !! "file") as [file |]; [| discriminate].
  fold (upload_name env file). fold (png_name env file).
  destruct (String.eqb (filename file) ""); [discriminate |].
  destruct (String.eqb (PyStr.strip _) ""); [discriminate |].
  destruct (negb (allowed_file _)); [discriminate |].
  destruct (save_error env); [discriminate |].
  destruct (String.eqb (file_ext _) "webp") eqn:Hext.
  - destruct (convert_error env); [discriminate |].
    intros H. apply infer_and_label_reached in H as (-> & i & p & _ & ->).
    exists file. split; [reflexivity |]. split; [reflexivity |].
    cbn [s_saved_name scan_of]. rewrite ?Hext.
    apply String.eqb_eq in Hext.
    destruct (remove_fails env).
    + apply lookup_insert_eq.
    + rewrite lookup_delete_ne by (apply webp_path_not_png_path; exact Hext).
      apply lookup_insert_eq.
  - intros H. apply infer_and_label_reached in H as (-> & i & p & _ & ->).
    exists file. split; [reflexivity |]. split; [reflexivity |].
    cbn [s_saved_name scan_of]. rewrite ?Hext. apply lookup_insert_eq.
Qed.

(** The PNG of a WEBP upload. *)
Lemma answered_image_is_on_disk_witness :
  exists c f',
    predict_steps Sample.demo_cfg Sample.env
      (Sample.upload "hand.webp" Sample.json_headers) Fixture.disk = Reached c f' /\
    f' !! Os.path_join "/srv/app/static/uploads" (s_saved_name c) =
    Some (Os.PngOf "RIFF....WEBP").
Proof.
  destruct (predict_steps Sample.demo_cfg Sample.env
              (Sample.upload "hand.webp" Sample.json_headers) Fixture.disk)
    as [r f' | e f' | c f'] eqn:E.
  - vm_compute in E. discriminate E.
  - vm_compute in E. discriminate E.
  - exists c, f'. split; [reflexivity |].
    destruct (answered_image_is_on_disk _ _ _ _ _ _ E) as (file & Hf & _ & Hl).
    vm_compute in Hf. injection Hf as <-. exact Hl.
Defined.

(** ** Reported numbers *)

(** X10: for a model output in [0,1] the reported confidence lies in
    [0.5, 1] and the percentage in [50, 100]; the stored inference time is
    not negative when the clock did not go backwards. *)
Theorem reported_numbers_are_in_range (env : Env) (patient saved : string) (p : Q) :
  (0 <= p <= 1)%Q ->
  let c := scan_of env patient saved p in
  (1 # 2 <= s_confidence c <= 1)%Q /\
  (50 <= s_confidence_pct c <= 100)%Q /\
  ((time_t0 env <= time_t1 env)%Q -> (0 <= s_inference_time c)%Q).
Proof.
  intros [Hp0 Hp1]. cbn [scan_of s_confidence s_confidence_pct s_inference_time].
  pose proof (confidence_of_range p (conj Hp0 Hp1)) as Hc.
  split; [exact Hc |]. split.
  - apply (confidence_pct_bounds (confidence_of p) 50 100); try lia;
      unfold inject_Z; lra.
  - intros Ht. apply (round_lower _ 4 0); [lia |].
    unfold F64.sub. apply RN_nonneg. lra.
Qed.

(** The model output 0.25. *)
Lemma reported_numbers_are_in_range_witness :
  (50 <= confidence_pct_of (confidence_of (1 # 4)) <= 100)%Q.
Proof.
  refine (proj1 (proj2 (reported_numbers_are_in_range Sample.env "Jane Doe" "x.png"
                          (1 # 4) _))).
  lra.
Defined.

(** ** Statistics *)

Section StatsFacts.
Import Storage.

Lemma sql_count_le_length p l : sql_count p l <= Z.of_nat (length l).
Proof.
unfold sql_count. pose proof (List.filter_length_le p l). lia.
Qed.

Lemma sum_Q_nonneg (l : list Q) :
Forall (fun q => 0 <= q)%Q l -> (0 <= sum_Q l)%Q.
Proof.
induction 1 as [| q l Hq _ IH]; [apply Qle_refl |].
cbn [sum_Q fold_right]. fold (sum_Q l). lra.
Qed.

Lemma sql_avg_nonneg (l : list Q) (a : Q) :
Forall (fun q => 0 <= q)%Q l -> sql_avg l = Some a -> (0 <= a)%Q.
Proof.
intros Hl. destruct l as [| q l]; [discriminate |].
unfold sql_avg. intros [= <-].
pose proof (sum_Q_nonneg _ Hl) as H0.
set (n := inject_Z (Z.of_nat (length (q :: l)))).
assert (Hn : (0 < n)%Q).
{ unfold n. change 0%Q with (inject_Z 0). rewrite <- Zlt_Qlt. simpl. lia. }
apply Qle_shift_div_l; [exact Hn |].
change (0 * n <= sum_Q (q :: l))%Q. clearbody n. lra.
Qed.

Lemma sql_count_all (l : list Prediction) :
sql_count (fun _ => true) l = Z.of_nat (length l).
Proof.
unfold sql_count. f_equal. f_equal.
induction l as [| x l IH]; simpl; [reflexivity | now rewrite IH].
Qed.

(** X11: whenever [query_stats] answers, [total_scans] is the number of
  rows, [fractures] is the number of rows labelled "Fractured" and lies
  between 0 and the total, [avg_latency] is [None] exactly for the empty
  table and is not negative when no stored latency is, no row of the
  table carries a true label, the labelled count is 0 and there is no
  accuracy. *)
Theorem stats_are_consistent (s : Session) (d : DB) (st : Stats) :
query_stats s d = Ok st ->
total_scans st = Z.of_nat (length (rows d)) /\
fractures st =
  Z.of_nat (length (List.filter (fun r => String.eqb (label r) "Fractured") (rows d))) /\
0 <= fractures st <= total_scans st /\
(avg_latency st = None <-> rows d = []) /\
(Forall (fun r => 0 <= inference_time r)%Q (rows d) ->
 forall a, avg_latency st = Some a -> (0 <= a)%Q) /\
Forall (fun r => true_label r = None) (rows d) /\
labelled_count st = 0 /\ model_accuracy st = None.
Proof.
intros H. apply query_stats_ok in H as (_ & H0 & ->).
cbn [total_scans fractures labelled_count avg_latency model_accuracy].
rewrite sql_count_all. split; [reflexivity |]. split; [reflexivity |].
split; [split; [apply sql_count_nonneg | apply sql_count_le_length] |].
split; [| split; [| split; [| split; reflexivity]]].
- destruct (sql_avg _) as [avg |] eqn:E.
  + split; [discriminate |]. intros Hr. rewrite Hr in E. discriminate.
  + apply sql_avg_none in E. apply List.map_eq_nil in E. now split.
- intros Hpos a. destruct (sql_avg _) as [avg |] eqn:E; [| discriminate].
  intros [= <-]. unfold F64.of_float. apply RN_nonneg.
  apply (sql_avg_nonneg _ _ (proj2 (List.Forall_map _ _ _) Hpos) E).
- apply sql_count_zero in H0. eapply Forall_impl; [exact H0 |].
  intros r. unfold is_labelled. now destruct (true_label r).
Qed.

(** The statistics after two upserts on the empty table. *)
Lemma stats_are_consistent_witness :
exists st,
  query_stats Sample.healthy
    (Table.run [Sample.upsert "A260101120000" "Jane Doe";
                Sample.upsert "A260101120001" "John Roe"] empty_db) = Ok st /\
  total_scans st = 2 /\ fractures st = 0 /\ labelled_count st = 0.
Proof.
destruct (query_stats Sample.healthy
            (Table.run [Sample.upsert "A260101120000" "Jane Doe";
                        Sample.upsert "A260101120001" "John Roe"] empty_db))
  as [st | e] eqn:E.
- exists st. split; [reflexivity |].
  destruct (stats_are_consistent _ _ _ E) as (Ht & Hf & _ & _ & _ & _ & Hl & _).
  split; [exact Ht |]. split; [exact Hf | exact Hl].
- vm_compute in E. discriminate E.
Defined.

(** Rows without a reference label. *)
Lemma after_unlabelled (d : DB) (u : Table.Upsert) :
Forall (fun r => true_label r = None) (rows d) ->
Forall (fun r => true_label r = None) (rows (Table.after d u)).
Proof.
intros H. unfold Table.after, Table.call, insert_prediction.
destruct (db_error (Table.u_session u)); [exact H |].
destruct (filter_by_scan_id (Table.u_scan_id u) (rows d)) as [| obj [| b t]] eqn:F;
  cbn [rows]; [| | exact H].
- apply List.Forall_app. split; [exact H |]. now constructor.
- assert (Ho : In obj (rows d)).
  { apply (filter_by_scan_id_In (Table.u_scan_id u)). rewrite F. now left. }
  rewrite List.Forall_forall in H. pose proof (H _ Ho) as Hobj.
  apply List.Forall_forall. intros r Hr. unfold flush_update in Hr.
  apply List.in_map_iff in Hr as (x & <- & Hx).
  destruct (id x =? _); [exact Hobj | now apply H].
Qed.

Lemma run_unlabelled (calls : list Table.Upsert) (d : DB) :
Forall (fun r => true_label r = None) (rows d) ->
Forall (fun r => true_label r = None) (rows (Table.run calls d)).
Proof.
revert d. induction calls as [| u calls IH]; intros d H; [exact H |].
simpl. apply IH. now apply after_unlabelled.
Qed.

Lemma sql_count_unlabelled (l : list Prediction) :
Forall (fun r => true_label r = None) l -> sql_count is_labelled l = 0.
Proof.
intros H. unfold sql_count.
replace (List.filter is_labelled l) with (@nil Prediction); [reflexivity |].
symmetry. induction H as [| x l Hx _ IH]; [reflexivity |].
simpl. unfold is_labelled at 1. now rewrite Hx.
Qed.

(** On a table without true labels the statistics are returned. *)
Lemma query_stats_unlabelled (s : Session) (d : DB) :
db_error s = None -> Forall (fun r => true_label r = None) (rows d) ->
query_stats s d =
Ok {| total_scans := sql_count (fun _ => true) (rows d);
      fractures := sql_count (fun r => String.eqb (label r) "Fractured") (rows d);
      avg_latency :=
        match sql_avg (List.map inference_time (rows d)) with
        | Some a => Some (F64.of_float a)
        | None => None
        end;
      model_accuracy := None;
      labelled_count := 0 |}.
Proof.
intros He Hu. unfold query_stats. rewrite He.
now rewrite (sql_count_unlabelled _ Hu).
Qed.

(** X12: [insert_prediction] never sets [true_label]: on any table built
  from the empty one by upserts, [query_stats] reports no labelled row
  and no accuracy; no row of such a table carries a true label, so over a
  healthy session [query_stats] does return there. *)
Theorem accuracy_is_never_available_from_own_writes
      (calls : list Table.Upsert) (s : Session) (st : Stats) :
(query_stats s (Table.run calls empty_db) = Ok st ->
 labelled_count st = 0 /\ model_accuracy st = None) /\
Forall (fun r => true_label r = None) (rows (Table.run calls empty_db)) /\
(db_error s = None ->
 exists st', query_stats s (Table.run calls empty_db) = Ok st' /\
             total_scans st' = Z.of_nat (length (rows (Table.run calls empty_db)))).
Proof.
pose proof (run_unlabelled calls empty_db (List.Forall_nil _)) as Hu.
split; [| split; [exact Hu |]].
- intros H. apply query_stats_ok in H as (_ & _ & ->). split; reflexivity.
- intros He. rewrite (query_stats_unlabelled _ _ He Hu).
  eexists. split; [reflexivity |]. apply sql_count_all.
Qed.

(** Two upserts on the empty table. *)
Lemma accuracy_is_never_available_from_own_writes_witness :
exists st,
  query_stats Sample.healthy
    (Table.run [Sample.upsert "A260101120000" "Jane Doe";
                Sample.upsert "A260101120001" "John Roe"] empty_db) = Ok st /\
  model_accuracy st = None.
Proof.
destruct (query_stats Sample.healthy
            (Table.run [Sample.upsert "A260101120000" "Jane Doe";
                        Sample.upsert "A260101120001" "John Roe"] empty_db))
  as [st | e] eqn:E.
- exists st. split; [reflexivity |].
  exact (proj2 (proj1 (accuracy_is_never_available_from_own_writes _ _ _) E)).
- vm_compute in E. discriminate E.
Defined.
End StatsFacts.

(** ** Recent rows after a write *)

Section RecentFacts.
Import Storage.

Lemma query_recent_unfold (s : Session) (d : DB) (n : Z) :
db_error s = None -> 0 <= n ->
query_recent s d n =
Ok (List.map to_recent_row (firstn (Z.to_nat n) (order_by_id_desc (rows d)))).
Proof.
intros He Hn. unfold query_recent, recent_rows, sql_limit. rewrite He.
destruct (Z.ltb_spec n 0); [lia | reflexivity].
Qed.

(** X13: for [n >= 0] and a healthy session [query_recent] returns exactly
  [min(n, number of rows)] dictionaries: none for [n = 0], and every row
  once when [n] is at least the row count. *)
Theorem recent_returns_min (s : Session) (d : DB) (n : Z) :
db_error s = None -> 0 <= n ->
exists l,
  query_recent s d n = Ok l /\
  Z.of_nat (length l) = Z.min n (Z.of_nat (length (rows d))) /\
  (n = 0 -> l = []) /\
  (Z.of_nat (length (rows d)) <= n ->
   Permutation (List.map r_scan_id l) (List.map scan_id (rows d))).
Proof.
intros He Hn. eexists. split; [now apply query_recent_unfold |].
pose proof (Permutation_length (order_by_id_desc_perm (rows d))) as Hlen.
split; [| split].
- rewrite List.length_map, List.length_firstn, Hlen. lia.
- intros ->. reflexivity.
- intros Hall. rewrite List.firstn_all2 by lia.
  rewrite List.map_map. cbn [r_scan_id to_recent_row].
  apply Permutation_map, order_by_id_desc_perm.
Qed.

(** Five rows asked of a table of two. *)
Lemma recent_returns_min_witness :
exists l,
  query_recent Sample.healthy Sample.two_rows 5 = Ok l /\
  Z.of_nat (length l) = 2.
Proof.
destruct (recent_returns_min Sample.healthy Sample.two_rows 5)
  as (l & Hq & Hlen & _); [reflexivity | lia |].
exists l. split; [exact Hq | exact Hlen].
Defined.

(** X14: on a well-formed table, after an upsert with a new scan id the
  new row heads [query_recent] and the rest is the former answer for
  [n - 1]; after an upsert that overwrites a row, the order of scan ids
  in [query_recent] is unchanged (the row is not moved to the front). *)
Theorem recent_after_upsert (d : DB) (u : Table.Upsert) :
Table.ok d -> db_error (Table.u_session u) = None ->
exists d',
  Table.call d u = Ok d' /\
  (~ In (Table.u_scan_id u) (List.map scan_id (rows d)) ->
   forall s n, db_error s = None -> 1 <= n ->
     exists first rest,
       query_recent s d' n = Ok (first :: rest) /\
       query_recent s d (n - 1) = Ok rest /\
       r_scan_id first = Table.u_scan_id u /\
       r_patient_name first = Table.u_patient_name u /\
       r_label first = Table.u_label u) /\
  (In (Table.u_scan_id u) (List.map scan_id (rows d)) ->
   forall s n, db_error s = None -> 0 <= n ->
     exists l l',
       query_recent s d n = Ok l /\ query_recent s d' n = Ok l' /\
       List.map r_scan_id l' = List.map r_scan_id l).
Proof.
intros Hok He.
pose proof (after_ok d u Hok) as Hok'. unfold Table.after in Hok'.
destruct (List.in_dec string_dec (Table.u_scan_id u) (List.map scan_id (rows d)))
  as [Hin | Hin].
- destruct (call_existing d u Hok He Hin) as (i & old & Hi & Hsid & Hc).
  rewrite Hc in Hok'. eexists. split; [exact Hc |].
  split; [intros Hnot; contradiction |].
  intros _ s n Hs Hn. eexists. eexists.
  split; [now apply query_recent_unfold |].
  split; [now apply query_recent_unfold |].
  rewrite (order_by_id_desc_rev _ (Table.ids_increasing _ Hok)).
  rewrite (order_by_id_desc_rev _ (Table.ids_increasing _ Hok')).
  cbn [rows]. rewrite !List.map_map. cbn [r_scan_id to_recent_row].
  rewrite <- !List.firstn_map, !List.map_rev.
  now rewrite (map_insert_same scan_id _ i old).
- rewrite (call_fresh_row d u He Hin) in Hok'.
  eexists. split; [apply (call_fresh_row d u He Hin) |].
  split; [| intros Hyes; contradiction].
  intros _ s n Hs Hn. eexists. eexists.
  split; [| split; [apply query_recent_unfold; [exact Hs | lia] |]].
  + rewrite query_recent_unfold by (auto; lia).
    rewrite (order_by_id_desc_rev _ (Table.ids_increasing _ Hok')).
    cbn [rows]. rewrite List.rev_app_distr. cbn [List.rev List.app].
    replace (Z.to_nat n) with (S (Z.to_nat (n - 1))) by lia.
    cbn [firstn List.map].
    rewrite <- (order_by_id_desc_rev _ (Table.ids_increasing _ Hok)).
    reflexivity.
  + repeat split.
Qed.

(** The newest row after a third scan. *)
Lemma recent_after_upsert_witness :
exists d',
  Table.call Sample.two_rows (Sample.upsert "A260101120002" "John Roe") = Ok d' /\
  exists first rest,
    query_recent Sample.healthy d' 1 = Ok (first :: rest) /\
    r_patient_name first = "John Roe".
Proof.
assert (Hok : Table.ok Sample.two_rows).
{ split; simpl.
  - repeat constructor.
  - repeat constructor.
  - apply NoDup_cons. split; [| apply NoDup_singleton].
    intros Hin. apply list_elem_of_singleton in Hin. discriminate Hin. }
destruct (recent_after_upsert Sample.two_rows
            (Sample.upsert "A260101120002" "John Roe") Hok eq_refl)
  as (d' & Hc & Hfresh & _).
exists d'. split; [exact Hc |].
destruct (Hfresh (fun H => match H with
                           | or_introl E => ltac:(discriminate E)
                           | or_intror (or_introl E) => ltac:(discriminate E)
                           | or_intror (or_intror F) => F
                           end)
            Sample.healthy 1 eq_refl ltac:(lia))
  as (first & rest & Hq & _ & _ & Hp & _).
exists first, rest. split; [exact Hq | exact Hp].
Defined.
End RecentFacts.

(** ** /api/stats after a prediction *)

Section ApiStats.
Import Storage.

Lemma sql_count_app p (l1 l2 : list Prediction) :
sql_count p (l1 ++ l2) = sql_count p l1 + sql_count p l2.
Proof. unfold sql_count. rewrite List.filter_app, List.length_app. lia. Qed.

(** X15: a prediction with a new scan id is stored. On a table without
  true labels [/api/stats] answers 200 before and after, with
  [total_scans] one higher, [fractures] one higher exactly when the label
  is "Fractured", and still no labelled row and no accuracy. On a table in
  which some row carries a true label it answers 500 before and after. *)
Theorem api_stats_counts_new_prediction
      (cfg : Config) (env : Env) (req : Request) (w : World)
      (c : Scan) (f' : gmap string Os.Blob) :
db_error (session env) = None ->
predict_steps cfg env req (fs w) = Reached c f' ->
~ In (s_scan_id c) (List.map scan_id (rows (db w))) ->
(Forall (fun r => true_label r = None) (rows (db w)) ->
 exists st st',
   api_stats env w = (200, StatsJson st) /\
   api_stats env (snd (predict cfg env req w)) = (200, StatsJson st') /\
   total_scans st' = total_scans st + 1 /\
   fractures st' =
     fractures st + (if String.eqb (s_label c) "Fractured" then 1 else 0) /\
   labelled_count st' = 0 /\
   model_accuracy st' = None) /\
((exists r, r ∈ rows (db w) /\ true_label r <> None) ->
 api_stats env w = (500, StatsError "Failed to fetch stats") /\
 api_stats env (snd (predict cfg env req w)) =
   (500, StatsError "Failed to fetch stats")).
Proof.
intros He Hsteps Hfresh.
set (u := {| Table.u_session := session env; Table.u_scan_id := s_scan_id c;
             Table.u_patient_name := s_patient_name c; Table.u_label := s_label c;
             Table.u_confidence := s_confidence c;
             Table.u_inference_time := s_inference_time c;
             Table.u_image_path := s_image_path c |}).
pose proof (call_fresh_row (db w) u He Hfresh) as Hc.
set (r0 := {| id := next_id (db w); scan_id := s_scan_id c;
              patient_name := s_patient_name c; label := s_label c;
              confidence := s_confidence c;
              inference_time := s_inference_time c;
              image_path := s_image_path c;
              timestamp := current_timestamp (session env);
              true_label := None |}).
assert (Hd : db (snd (predict cfg env req w)) =
             {| rows := rows (db w) ++ [r0]; next_id := next_id (db w) + 1 |}).
{ unfold predict. rewrite Hsteps. cbn [snd db]. unfold persist.
  change (insert_prediction _ _ _ _ _ _ _ _) with (Table.call (db w) u).
  now rewrite Hc. }
split.
- intros Hun.
  assert (Hun' : Forall (fun r => true_label r = None) (rows (db w) ++ [r0])).
  { apply List.Forall_app. split; [exact Hun | now constructor]. }
  unfold api_stats. rewrite Hd.
  rewrite (query_stats_unlabelled _ _ He Hun).
  rewrite (query_stats_unlabelled (session env)
             {| rows := rows (db w) ++ [r0]; next_id := next_id (db w) + 1 |}
             He Hun').
  eexists. eexists. split; [reflexivity |]. split; [reflexivity |].
  cbn [total_scans fractures labelled_count model_accuracy rows].
  rewrite !sql_count_app.
  split; [reflexivity |]. split; [| split; reflexivity].
  f_equal. unfold sql_count. cbn [List.filter label r0].
  now destruct (String.eqb (s_label c) "Fractured").
- intros (r & Hin & Hl).
  assert (Hlab : is_labelled r = true).
  { unfold is_labelled. now destruct (true_label r). }
  unfold api_stats. rewrite Hd.
  destruct (query_stats_labelled (session env) (db w) r Hin Hlab) as [e ->].
  destruct (query_stats_labelled (session env)
              {| rows := rows (db w) ++ [r0]; next_id := next_id (db w) + 1 |} r)
    as [e' ->]; [| exact Hlab | split; reflexivity].
  cbn [rows]. apply elem_of_app. now left.
Qed.

(** A first prediction by a model answering 0.25. *)
Lemma api_stats_counts_new_prediction_witness :
exists st st',
  api_stats Sample.env Sample.world = (200, StatsJson st) /\
  api_stats Sample.env
    (snd (predict (Fixture.cfg_with Fixture.fractured_model) Sample.env
            (Fixture.upload_for "hand.png" "Jane Doe" Sample.json_headers)
            Sample.world)) = (200, StatsJson st') /\
  total_scans st' = total_scans st + 1 /\
  fractures st' = fractures st + 1.
Proof.
destruct (predict_steps (Fixture.cfg_with Fixture.fractured_model) Sample.env
            (Fixture.upload_for "hand.png" "Jane Doe" Sample.json_headers)
            (fs Sample.world))
  as [r f' | e f' | c f'] eqn:E.
- vm_compute in E. discriminate E.
- vm_compute in E. discriminate E.
- assert (Hlab : s_label c = "Fractured").
  { vm_compute in E. injection E as <- _. reflexivity. }
  destruct (api_stats_counts_new_prediction
              (Fixture.cfg_with Fixture.fractured_model) Sample.env
              (Fixture.upload_for "hand.png" "Jane Doe" Sample.json_headers)
              Sample.world c f' eq_refl E) as [H _].
  + simpl. tauto.
  + destruct (H (List.Forall_nil _)) as (st & st' & H1 & H2 & H3 & H4 & _).
    exists st, st'. rewrite Hlab in H4. auto.
Defined.
End ApiStats.

(** ** Content negotiation *)

Section Negotiation.
Import PyStr.

Lemma prefix_iff (n h : string) :
String.prefix n h = true <-> exists b, h = n +:+ b.
Proof.
revert h. induction n as [| c n IH]; intros h.
- split; [intros _; now exists h | intros _; now destruct h].
- destruct h as [| d h]; simpl.
  + split; [discriminate | intros [b Hb]; discriminate Hb].
  + destruct (ascii_dec c d) as [-> | Hne].
    * rewrite IH. split; intros [b Hb]; exists b.
      -- rewrite app_cons. now rewrite Hb.
      -- rewrite app_cons in Hb. now injection Hb.
    * split; [discriminate |]. intros [b Hb]. rewrite app_cons in Hb.
      injection Hb as Hc _. congruence.
Qed.

Lemma contains_iff (n h : string) :
contains n h = true <-> exists a b, h = a +:+ n +:+ b.
Proof.
induction h as [| d h IH].
- cbn [contains]. rewrite orb_false_r, prefix_iff. split.
  + intros [b Hb]. now exists "", b.
  + intros (a & b & H). destruct a as [| x a]; [now exists b |].
    rewrite app_cons in H. discriminate H.
- cbn [contains]. rewrite orb_true_iff, IH, prefix_iff. split.
  + intros [[b Hb] | (a & b & ->)].
    * now exists "", b.
    * exists (String d a), b. now rewrite app_cons.
  + intros (a & b & H). destruct a as [| x a].
    * left. now exists b.
    * right. rewrite app_cons in H. injection H as _ H. now exists a, b.
Qed.

(** X16: [request_wants_json] holds exactly when the [Accept] header
  contains [application/json] somewhere, or [X-Requested-With] is exactly
  [XMLHttpRequest]. *)
Theorem wants_json_iff (req : Request) :
request_wants_json req = true <->
(exists v a b, headers req !! "Accept" = Some v /\
               v = a +:+ "application/json" +:+ b) \/
headers req !! "X-Requested-With" = Some "XMLHttpRequest".
Proof.
unfold request_wants_json, dict_get.
rewrite orb_true_iff, contains_iff, String.eqb_eq.
split.
- intros [(a & b & H) | H].
  + left. destruct (headers req !! "Accept") as [v |]; [now exists v, a, b |].
    destruct a as [| x a]; [rewrite app_empty in H | rewrite app_cons in H];
      discriminate H.
  + right. destruct (headers req !! "X-Requested-With"); [now subst | discriminate].
- intros [(v & a & b & -> & ->) | ->]; [left; now exists a, b | now right].
Qed.

(** An [Accept] header listing JSON second. *)
Lemma wants_json_iff_witness :
request_wants_json
  (Sample.no_file {[ "Accept" := "text/html, application/json;q=0.9" ]}) = true.
Proof.
apply (proj2 (wants_json_iff _)). left.
exists "text/html, application/json;q=0.9", "text/html, ", ";q=0.9".
split; reflexivity.
Defined.
End Negotiation.

(** ** The image of the report *)

Lemma append_nonempty_r (a b : string) : b <> "" -> a +:+ b <> "".
Proof.
  intros Hb H. destruct a as [| c a]; [now rewrite app_empty in H |].
  rewrite app_cons in H. discriminate H.
Qed.

Lemma append_nonempty_l (a b : string) : a <> "" -> a +:+ b <> "".
Proof.
  intros Ha H. destruct a as [| c a]; [congruence |].
  rewrite app_cons in H. discriminate H.
Qed.

Lemma path_join_nonempty (a b : string) :
  a <> "" \/ b <> "" -> Os.path_join a b <> "".
Proof.
  intros Hab. destruct (string_dec b "") as [-> | Hb].
  - destruct Hab as [Ha | Hb]; [| congruence].
    unfold Os.path_join. destruct (_ || _); now apply append_nonempty_l.
  - destruct (path_join_suffix a b) as [pre ->]. now apply append_nonempty_r.
Qed.

Lemma upload_dir_nonempty (cfg : Config) : UPLOAD_DIR cfg <> "".
Proof. unfold UPLOAD_DIR. apply path_join_nonempty. right. discriminate. Qed.

(** X17: when embedding does not raise, the report shows exactly one
    image: the given path without its leading slashes if that exists,
    wherever on disk it lies, and otherwise its base name under the upload
    directory if that exists. *)
Theorem report_embeds_resolved_image
        (cfg : Config) (env : Env) (req : Request) (w : World) (p : string) :
  (if String.eqb (method req) "POST" then form req else args req) !! "image_path"
  = Some p ->
  image_reader_fails env = false ->
  let candidate := PyStr.lstrip_by (Ascii.eqb "/") p in
  let candidate2 := Os.path_join (UPLOAD_DIR cfg) (Os.basename candidate) in
  candidate <> "" ->
  exists page,
    download_report cfg env req w =
    {| status := 200;
       body := SendFile [page] "xray_report.pdf" "application/pdf" true |} /\
    (Os.path_exists (fs w) candidate = true ->
     List.filter is_draw_image page = [DrawImage candidate 40 380 300 300]) /\
    (Os.path_exists (fs w) candidate = false ->
     Os.path_exists (fs w) candidate2 = true ->
     List.filter is_draw_image page = [DrawImage candidate2 40 380 300 300]).
Proof.
  intros Hp Hread candidate candidate2 Hne.
  assert (Hpne : p <> "").
  { intros ->. now apply Hne. }
  assert (Hc2 : candidate2 <> "").
  { unfold candidate2. apply path_join_nonempty. left. apply upload_dir_nonempty. }
  unfold download_report. rewrite Hp, Hread.
  rewrite (resolve_image_unfold cfg (fs w) p Hpne). cbv zeta.
  fold candidate. fold candidate2.
  destruct (Os.path_exists (fs w) candidate) eqn:E1.
  - destruct candidate as [| x t] eqn:Ec; [congruence |].
    eexists. split; [reflexivity |]. split; [reflexivity | discriminate].
  - destruct (Os.path_exists (fs w) candidate2) eqn:E2.
    + destruct candidate2 as [| x t] eqn:Ec; [congruence |].
      eexists. split; [reflexivity |]. split; [discriminate | reflexivity].
    + eexists. split; [reflexivity |]. split; discriminate.
Qed.

(** A report naming a file outside the upload directory. *)
Lemma report_embeds_resolved_image_witness :
  exists page,
    download_report Sample.demo_cfg Sample.env
      (Sample.get {[ "image_path" := "/config/secret.png" ]})
      {| fs := Fixture.disk; db := Storage.empty_db |} =
    {| status := 200;
       body := SendFile [page] "xray_report.pdf" "application/pdf" true |} /\
    List.filter is_draw_image page = [DrawImage "config/secret.png" 40 380 300 300].
Proof.
  destruct (report_embeds_resolved_image Sample.demo_cfg Sample.env
              (Sample.get {[ "image_path" := "/config/secret.png" ]})
              {| fs := Fixture.disk; db := Storage.empty_db |}
              "/config/secret.png")
    as (page & Hd & Hfirst & _).
  - vm_compute. reflexivity.
  - reflexivity.
  - vm_compute. discriminate.
  - exists page. split; [exact Hd |]. apply Hfirst. vm_compute. reflexivity.
Defined.

(** ** Negotiation does not change what is stored *)

Lemma infer_and_label_headers cfg env req hd patient saved path (f : gmap string Os.Blob) :
  match infer_and_label cfg env (with_headers req hd) patient saved path f,
        infer_and_label cfg env req patient saved path f with
  | Returned _ f1, Returned _ f2 => f1 = f2
  | Unhandled e1 f1, Unhandled e2 f2 => e1 = e2 /\ f1 = f2
  | Reached c1 f1, Reached c2 f2 => c1 = c2 /\ f1 = f2
  | _, _ => False
  end.
Proof.
  unfold infer_and_label.
  destruct (TF_AVAILABLE cfg && bool_decide (is_Some (model cfg))).
  - destruct (preprocess_error env); [reflexivity |].
    destruct (predict_from_model cfg env (f !! path)); [split |]; reflexivity.
  - destruct (predict_from_model cfg env None); split; reflexivity.
Qed.

Lemma predict_steps_headers cfg env req hd (f : gmap string Os.Blob) :
  match predict_steps cfg env (with_headers req hd) f, predict_steps cfg env req f with
  | Returned _ f1, Returned _ f2 => f1 = f2
  | Unhandled e1 f1, Unhandled e2 f2 => e1 = e2 /\ f1 = f2
  | Reached c1 f1, Reached c2 f2 => c1 = c2 /\ f1 = f2
  | _, _ => False
  end.
Proof.
  unfold predict_steps. cbn [files form with_headers].
  destruct (files req !! "file") as [file |]; [| reflexivity].
  destruct (String.eqb (filename file) ""); [reflexivity |].
  destruct (String.eqb (PyStr.strip _) ""); [reflexivity |].
  destruct (negb (allowed_file _)); [reflexivity |].
  destruct (save_error env); [split; reflexivity |].
  destruct (String.eqb (file_ext _) "webp").
  - destruct (convert_error env); [reflexivity |]. apply infer_and_label_headers.
  - apply infer_and_label_headers.
Qed.

(** X18: the headers of a request change neither what [predict] leaves on
    disk and in the table, nor whether it succeeds. *)
Theorem negotiation_does_not_change_effects
        (cfg : Config) (env : Env) (req : Request) (w : World)
        (hd : gmap string string) :
  snd (predict cfg env (with_headers req hd) w) = snd (predict cfg env req w) /\
  (status (fst (predict cfg env (with_headers req hd) w)) = 200 /\
   response_error (fst (predict cfg env (with_headers req hd) w)) = None <->
   status (fst (predict cfg env req w)) = 200 /\
   response_error (fst (predict cfg env req w)) = None).
Proof.
  unfold predict.
  pose proof (predict_steps_headers cfg env req hd (fs w)) as H.
  destruct (predict_steps cfg env (with_headers req hd) (fs w)) as [r1 f1 | e1 f1 | c1 f1] eqn:E1;
    destruct (predict_steps cfg env req (fs w)) as [r2 f2 | e2 f2 | c2 f2] eqn:E2;
    try contradiction; cbn [fst snd].
  - subst f2. split; [reflexivity |].
    apply predict_steps_returned in E1 as (m1 & d1 & k1 & ->).
    apply predict_steps_returned in E2 as (m2 & d2 & k2 & ->).
    split; intros [_ Hn]; exfalso; revert Hn; unfold response_error, response_field,
      error_response; destruct (request_wants_json _); discriminate.
  - destruct H as [-> ->]. split; [reflexivity |].
    split; intros [_ Hn]; exfalso; revert Hn; unfold response_error, response_field,
      error_response; destruct (request_wants_json _); discriminate.
  - destruct H as [-> ->]. split; [reflexivity |].
    rewrite !success_response_status, !success_response_no_error. tauto.
Qed.

(** A WEBP upload with and without the JSON header. *)
Lemma negotiation_does_not_change_effects_witness :
  snd (predict Sample.demo_cfg Sample.env
         (with_headers (Sample.upload "hand.webp" ∅) Sample.json_headers) Sample.world) =
  snd (predict Sample.demo_cfg Sample.env (Sample.upload "hand.webp" ∅) Sample.world).
Proof.
  exact (proj1 (negotiation_does_not_change_effects Sample.demo_cfg Sample.env
                  (Sample.upload "hand.webp" ∅) Sample.world Sample.json_headers)).
Defined.
